(** * Circle plotter: a shallow embedding of [circle_plotter.py]

    The module lays circles out in columns, group after group, and yields
    one [CircleAttributes] per record and one [GroupLabel] per group.

    Modelling choices.
    - Coordinates, radii and opacities are exact rationals ([Qc], the
      rationals in lowest terms, whose equality is Leibniz equality).
      Rounding and overflow of binary floating point, and missing
      values (NaN), are outside the model.
    - A Python exception is a value of [exn]; code that may raise returns
      [result A = exn + A].
    - A generator body is run in the [trace] monad: the items it yields, in
      order, and how it ended (an exception or its final state).
    - A [dict] is an association list in insertion order with one entry
      per key; dict objects live in a [heap] and are passed by reference.
    - matplotlib's [is_color_like] and pandas' [sort_values] are external:
      they are class members, the second with the contract pandas
      documents for it (a permutation of the rows in the direction its
      [ascending] argument asks for; ties in input order when there are
      several sort columns; with one column the default [kind='quicksort']
      promises nothing about the order of ties).
    - [create_circle], which only builds a matplotlib patch, and the
      loading script [election_pipeline.py] are left out. *)

From Stdlib Require Import ZArith QArith Qcanon List String Bool.
From Stdlib Require Import Lia Permutation Sorted.
Import ListNotations.

Local Open Scope string_scope.
Local Open Scope list_scope.
Local Open Scope Z_scope.
Local Open Scope Qc_scope.

(* ================================================================= *)
(** ** Numbers *)

(** An [int] used where a number is expected. *)
Definition zq (z : Z) : Qc := Q2Qc (inject_Z z).

(** A decimal literal [n / 10]. *)
Definition tenths (n : Z) : Qc := Q2Qc (n # 10).

Definition Qc_eqb (a b : Qc) : bool :=
  match a ?= b with Eq => true | _ => false end.
Definition Qc_ltb (a b : Qc) : bool :=
  match a ?= b with Lt => true | _ => false end.
Definition Qc_leb (a b : Qc) : bool :=
  match a ?= b with Gt => false | _ => true end.

(* ================================================================= *)
(** ** Table cells, rows and data frames *)

(** A cell of a data frame: a number or a string.  Group identifiers are
    cells, and so are the keys of the [plot_attributes] dict. *)
Inductive cell :=
| CNum (q : Qc)
| CStr (s : string).

Definition cell_eqb (a b : cell) : bool :=
  match a, b with
  | CNum p, CNum q => Qc_eqb p q
  | CStr s, CStr t => String.eqb s t
  | _, _ => false
  end.

(** The order pandas sorts a column by; a column holds cells of one kind,
    and numbers are put before strings only to make the order total. *)
Definition cell_compare (a b : cell) : comparison :=
  match a, b with
  | CNum p, CNum q => p ?= q
  | CStr s, CStr t => String.compare s t
  | CNum _, CStr _ => Lt
  | CStr _, CNum _ => Gt
  end.

(** One row, as [itertuples()] hands it out: the index label, then the
    cells in column order. *)
Record Row := { Index : Z; cells : list cell }.

Record DataFrame := { columns : list string; rows : list Row }.

(** [data.shape[0]] *)
Definition shape0 (df : DataFrame) : Z := Z.of_nat (List.length (rows df)).

Fixpoint column_index (c : string) (cols : list string) : nat :=
  match cols with
  | [] => O
  | c' :: cols' => if String.eqb c c' then O else S (column_index c cols')
  end.

(** The cell of row [r] in column [c].  Frames are rectangular and [c] is
    a column of the frame wherever this is used after validation; the
    default is never reached there. *)
Definition cell_at (cols : list string) (r : Row) (c : string) : cell :=
  nth (column_index c cols) (cells r) (CStr "").

Definition in_columns (c : string) (df : DataFrame) : bool :=
  existsb (String.eqb c) (columns df).

(** The keys of a row for [by=order]. *)
Definition sort_key (cols : list string) (by_ : list string) (r : Row)
  : list cell :=
  map (cell_at cols r) by_.

Fixpoint lex_compare (k1 k2 : list cell) : comparison :=
  match k1, k2 with
  | [], [] => Eq
  | [], _ :: _ => Lt
  | _ :: _, [] => Gt
  | a :: k1', b :: k2' =>
      match cell_compare a b with
      | Eq => lex_compare k1' k2'
      | c => c
      end
  end.

(** [key_geb cols by r1 r2]: the keys of [r1] are not below those of [r2],
    so [r1] may come before [r2] in descending order. *)
Definition key_geb (cols by_ : list string) (r1 r2 : Row) : bool :=
  match lex_compare (sort_key cols by_ r1) (sort_key cols by_ r2) with
  | Lt => false
  | _ => true
  end.

(** Keys in order of first occurrence. *)
Fixpoint first_occurrences (l : list cell) : list cell :=
  match l with
  | [] => []
  | k :: t => k :: filter (fun k' => negb (cell_eqb k' k)) (first_occurrences t)
  end.

(** [input_data.groupby(group, sort=False)]: the groups in the order their
    key first appears, each with its rows in input order.  (pandas leaves
    out the rows whose key is missing; a cell here always has a value.) *)
Definition groupby (df : DataFrame) (group : string) (_sort : bool)
  : list (cell * DataFrame) :=
  let key r := cell_at (columns df) r group in
  map (fun k =>
         (k, {| columns := columns df;
                rows := filter (fun r => cell_eqb (key r) k) (rows df) |}))
      (first_occurrences (map key (rows df))).

(** [key_leb], like [key_geb], for ascending order; [in_order] is the one
    or the other, as the [ascending] argument of a sort asks. *)
Definition key_leb (cols by_ : list string) (r1 r2 : Row) : bool :=
  match lex_compare (sort_key cols by_ r1) (sort_key cols by_ r2) with
  | Gt => false
  | _ => true
  end.

Definition in_order (ascending : bool) (cols by_ : list string)
           (r1 r2 : Row) : bool :=
  if ascending then key_leb cols by_ r1 r2 else key_geb cols by_ r1 r2.

(** Rows with the same keys for [by]. *)
Definition same_key (cols by_ : list string) (r1 r2 : Row) : bool :=
  match lex_compare (sort_key cols by_ r1) (sort_key cols by_ r2) with
  | Eq => true
  | _ => false
  end.

(** The cells of a column are numbers only, or strings only.  pandas
    raises a type error when a sort has to order the ones against the
    others, so what it documents for a sort is about frames whose sort
    columns are of one kind each. *)
Definition is_number (c : cell) : bool :=
  match c with
  | CNum _ => true
  | CStr _ => false
  end.

Definition one_kind (df : DataFrame) (c : string) : Prop :=
  exists b, forall r,
      In r (rows df) -> is_number (cell_at (columns df) r c) = b.

Definition sortable (df : DataFrame) (by_ : list string) : Prop :=
  forall c, In c by_ -> one_kind df c.

(** pandas' [DataFrame.sort_values(by=..., ascending=...)], with [kind]
    left at its default. *)
Class PandasSort :=
  sort_values : DataFrame -> list string -> bool -> DataFrame.

(** What pandas documents for it: the same columns and the same rows in
    some order; and, for a frame it can sort, consecutive rows in the
    order asked for.  With two or more sort columns the rows are ordered
    by a stable sort: rows with the same keys stay in input order.  With
    one column the sort is of the default [kind='quicksort'], which is
    not a stable sort, and nothing is said of ties. *)
Class PandasSortSpec (P : PandasSort) : Prop := {
  sort_values_columns :
    forall df by_ ascending,
      columns (sort_values df by_ ascending) = columns df;
  sort_values_Permutation :
    forall df by_ ascending,
      Permutation (rows (sort_values df by_ ascending)) (rows df);
  sort_values_Sorted :
    forall df by_ ascending,
      sortable df by_ ->
      Sorted (fun r1 r2 => in_order ascending (columns df) by_ r1 r2 = true)
             (rows (sort_values df by_ ascending));
  sort_values_stable :
    forall df by_ ascending r,
      sortable df by_ ->
      (2 <= List.length by_)%nat ->
      filter (same_key (columns df) by_ r)
             (rows (sort_values df by_ ascending))
      = filter (same_key (columns df) by_ r) (rows df)
}.

(** A sort that meets the contract: insertion from the right, which keeps
    tied rows in input order. *)
Fixpoint insert_row (ascending : bool) (cols by_ : list string) (r : Row)
         (l : list Row) : list Row :=
  match l with
  | [] => [r]
  | r' :: l' =>
      if in_order ascending cols by_ r r' then r :: l
      else r' :: insert_row ascending cols by_ r l'
  end.

Definition stable_sort_rows (ascending : bool) (cols by_ : list string)
           (l : list Row) : list Row :=
  fold_right (insert_row ascending cols by_) [] l.

Definition stable_sort : PandasSort :=
  fun df by_ ascending =>
    {| columns := columns df;
       rows := stable_sort_rows ascending (columns df) by_ (rows df) |}.

(* ================================================================= *)
(** ** Python values, exceptions, the heap *)

(** Identity of a dict object. *)
Definition ref := nat.

#[local] Set Warnings "-register-all".

Inductive pyval :=
| PyNone
| PyInt (z : Z)
| PyFloat (q : Qc)
| PyStr (s : string)
| PyList (l : list pyval)
| PyTuple (l : list pyval)
| PyDict (l : ref)
| PyDataFrame (df : DataFrame)
| PyPlotAttributes (_color _alpha _label : pyval).

Inductive exn :=
| TypeError (msg : string)
| ValueError (msg : string)
| KeyError (key : cell)
| AttributeError (name : string)
| ZeroDivisionError
| UnboundLocalError (name : string).

Definition result (A : Type) : Type := (exn + A)%type.

Definition rbind {A B} (m : result A) (f : A -> result B) : result B :=
  match m with
  | inl e => inl e
  | inr a => f a
  end.

Notation "x <-! m ;; k" := (rbind m (fun x => k))
  (at level 61, m at next level, right associativity).

(** [isinstance(value, (float, int))], with the number it denotes. *)
Definition as_number (value : pyval) : option Qc :=
  match value with
  | PyInt z => Some (zq z)
  | PyFloat q => Some q
  | _ => None
  end.

(** [isinstance(value, (list, tuple))], with its elements. *)
Definition as_sequence (value : pyval) : option (list pyval) :=
  match value with
  | PyList l => Some l
  | PyTuple l => Some l
  | _ => None
  end.

Definition dict := list (cell * pyval).

Fixpoint dict_get (d : dict) (k : cell) : option pyval :=
  match d with
  | [] => None
  | (k', v) :: d' => if cell_eqb k k' then Some v else dict_get d' k
  end.

(** [d[k] = v]: an existing key keeps its place. *)
Fixpoint dict_set (d : dict) (k : cell) (v : pyval) : dict :=
  match d with
  | [] => [(k, v)]
  | (k', v') :: d' =>
      if cell_eqb k k' then (k', v) :: d' else (k', v') :: dict_set d' k v
  end.

(** The dict objects, by identity. *)
Definition heap := ref -> dict.

Definition heap_set (h : heap) (l : ref) (d : dict) : heap :=
  fun l' => if Nat.eqb l' l then d else h l'.

(* ================================================================= *)
(** ** class PlotAttributes *)

(** matplotlib's [is_color_like]. *)
Class Matplotlib := is_color_like : pyval -> bool.

Module PlotAttributes.

(** [@color.setter] *)
Definition color_setter `{Matplotlib} (value : pyval) : result pyval :=
  if negb (is_color_like value)
  then inl (ValueError "Must specify a valid color.")
  else inr value.

(** [@alpha.setter].  The chained comparison [0 > value <= 1] is
    [(0 > value) and (value <= 1)]. *)
Definition alpha_setter (value : pyval) : result pyval :=
  match as_number value with
  | None => inl (TypeError "alpha must be of type float")
  | Some v =>
      if Qc_ltb v 0 && Qc_leb v 1
      then inl (ValueError "Must specify an alpha value between 0 and 1")
      else inr value
  end.

(** [__init__(self, color, alpha, label)] *)
Definition __init__ `{Matplotlib} (color alpha label : pyval)
  : result pyval :=
  c <-! color_setter color ;;
  a <-! alpha_setter alpha ;;
  inr (PyPlotAttributes c a label).

(** [.label] of an arbitrary object. *)
Definition label (obj : pyval) : result pyval :=
  match obj with
  | PyPlotAttributes _ _ l => inr l
  | _ => inl (AttributeError "label")
  end.

End PlotAttributes.

(* ================================================================= *)
(** ** Generators *)

(** [set.add], [sum], [len] and [max] on a set of numbers, kept as the list
    of its distinct members. *)
Definition set_add (v : Qc) (s : list Qc) : list Qc :=
  if existsb (Qc_eqb v) s then s else s ++ [v].

Definition py_sum (s : list Qc) : Qc := fold_left Qcplus s 0.

Definition py_len (s : list Qc) : Z := Z.of_nat (List.length s).

Definition py_max (s : list Qc) : result Qc :=
  match s with
  | [] => inl (ValueError "max() arg is an empty sequence")
  | v :: s' => inr (fold_left (fun m w => if Qc_ltb m w then w else m) s' v)
  end.

(** [a / b] on numbers and [i % d] on ints. *)
Definition py_div (a b : Qc) : result Qc :=
  if Qc_eqb b 0 then inl ZeroDivisionError else inr (a / b).

Definition py_mod (i d : Z) : result Z :=
  if Z.eqb d 0 then inl ZeroDivisionError else inr (Z.modulo i d).

Module CirclePointHistory.
Record t := mk { x : list Qc; y : list Qc }.

(** [field(default_factory=set)] *)
Definition empty : t := mk [] [].

Definition add_point (self : t) (px py : Qc) : t :=
  mk (set_add px (x self)) (set_add py (y self)).
End CirclePointHistory.

Module CircleAttributes.
Record t := mk { group : cell; count : Z; row : Row; x : Qc; y : Qc }.
End CircleAttributes.

Module GroupLabel.
Record t := mk {
  group_label : cell;
  group_sublabel : pyval;
  group_count : Z;
  label_x : Qc;
  label_y : Qc;
  gridline_x : Qc
}.
End GroupLabel.

(** What the generator yields. *)
Inductive item :=
| Circle (c : CircleAttributes.t)
| Label (g : GroupLabel.t).

(** A run of a generator body: the items yielded so far, then an exception
    or the value the code went on with. *)
Definition trace (A : Type) : Type := (list item * result A)%type.

Definition tret {A} (a : A) : trace A := ([], inr a).

Definition lift {A} (r : result A) : trace A := ([], r).

Definition yield (it : item) : trace unit := ([it], inr tt).

Definition tbind {A B} (m : trace A) (f : A -> trace B) : trace B :=
  match m with
  | (out, inl e) => (out, inl e)
  | (out, inr a) => let (out', r) := f a in (out ++ out', r)
  end.

Notation "x <-~ m ;; k" := (tbind m (fun x => k))
  (at level 61, m at next level, right associativity).
Notation "' pat <-~ m ;; k" := (tbind m (fun x => match x with pat => k end))
  (at level 61, pat pattern, m at next level, right associativity).

(** [for a in l: s = body a s] *)
Fixpoint for_ {A S} (body : A -> S -> trace S) (l : list A) (s : S)
  : trace S :=
  match l with
  | [] => tret s
  | a :: l' => s' <-~ body a s ;; for_ body l' s'
  end.

(** [enumerate(l)], counting from [i]. *)
Fixpoint enumerate_from {A} (i : Z) (l : list A) : list (Z * A) :=
  match l with
  | [] => []
  | a :: l' => (i, a) :: enumerate_from (i + 1)%Z l'
  end.

Definition enumerate {A} (l : list A) : list (Z * A) := enumerate_from 0%Z l.

(** A generator object: created and not started (its body has not run a
    single statement), suspended at a [yield] with the rest of its run, or
    finished. *)
Inductive generator :=
| Gen_created (body : heap -> trace unit)
| Gen_suspended (rest : list item) (exit : result unit)
| Gen_finished.

Inductive next_result :=
| Yielded (it : item)
| Raised (e : exn)
| StopIteration.

Definition resume (out : list item) (exit : result unit)
  : next_result * generator :=
  match out with
  | it :: rest => (Yielded it, Gen_suspended rest exit)
  | [] =>
      match exit with
      | inl e => (Raised e, Gen_finished)
      | inr _ => (StopIteration, Gen_finished)
      end
  end.

(** [next(g)] in heap [h]. The body is pure between two yields, so its run
    is computed when it starts and handed out item by item. *)
Definition next (h : heap) (g : generator) : next_result * generator :=
  match g with
  | Gen_created body => let (out, exit) := body h in resume out exit
  | Gen_suspended rest exit => resume rest exit
  | Gen_finished => (StopIteration, Gen_finished)
  end.

(** [list(g)]: every item up to the end, and the exception that ended the
    iteration if one did. *)
Definition consume (h : heap) (g : generator) : list item * option exn :=
  match g with
  | Gen_created body =>
      let (out, exit) := body h in
      (out, match exit with inl e => Some e | inr _ => None end)
  | Gen_suspended rest exit =>
      (rest, match exit with inl e => Some e | inr _ => None end)
  | Gen_finished => ([], None)
  end.

(* ================================================================= *)
(** ** class CirclePlotter *)

(** [repr] of a list of strings, as an f-string prints it. *)
Definition repr_list (l : list string) : string :=
  ("[" ++ String.concat ", " (map (fun s => "'" ++ s ++ "'") l)
       ++ "]")%string.

Module CirclePlotter.

(** The instance attributes.  [_pad] is a cache of [2 * _radius] that the
    radius setter clears, so [pad] below is the value the property
    returns at any time. *)
Record t := mk {
  _radius : Qc;
  _x_init : Qc;
  _y_init : Qc;
  circles_per_column : Z;
  _plot_attributes : ref
}.

Definition radius_setter (value : Qc) : result Qc :=
  if Qc_leb value 0
  then inl (ValueError "Radius must be greater than 0.")
  else inr value.

Definition pad (self : t) : Qc := zq 2 * _radius self.

Definition x_init_setter (value : Qc) : result Qc :=
  if Qc_ltb value 0
  then inl (ValueError "x_init must be greater than or equal to 0.")
  else inr value.

Definition y_init_setter (value : Qc) : result Qc :=
  if Qc_ltb value 0
  then inl (ValueError "y_init must be greater than or equal to 0.")
  else inr value.

(** The loop of [@plot_attributes.setter] over [value.items()], where
    [value] is the dict object at [l]: each pass checks one entry and
    stores the new [PlotAttributes] under the same key of the same
    object.  An exception leaves the earlier stores in place.  (The
    message of the first error is written over two source lines; the
    white space between them is left out here.) *)
Fixpoint convert_items `{Matplotlib} (h : heap) (l : ref)
         (items : list (cell * pyval)) : heap * result unit :=
  match items with
  | [] => (h, inr tt)
  | (group, attributes) :: items' =>
      match as_sequence attributes with
      | None =>
          (h, inl (TypeError
                     "plot_attributes must be of type tuple or list."))
      | Some elems =>
          match elems with
          | [color; alpha; label] =>
              match PlotAttributes.__init__ color alpha label with
              | inl e => (h, inl e)
              | inr obj =>
                  convert_items (heap_set h l (dict_set (h l) group obj))
                                l items'
              end
          | _ =>
              (h, inl (ValueError
                         ("plot_attributes must include color,"
                            ++ "alpha, and label.")))
          end
      end
  end.

(** [@plot_attributes.setter]: returns the reference it stores in
    [self._plot_attributes]. *)
Definition plot_attributes_setter `{Matplotlib} (h : heap) (value : pyval)
  : heap * result ref :=
  match value with
  | PyDict l =>
      let (h', r) := convert_items h l (h l) in
      (h', _ <-! r ;; inr l)
  | _ => (h, inl (TypeError "plot_attributes must of type dictionary."))
  end.

(** [__init__]: the setters in the order of the assignments. *)
Definition __init__ `{Matplotlib} (h : heap) (plot_attributes : pyval)
           (radius x_init y_init : Qc) (circles_per_column : Z)
  : heap * result t :=
  match (r <-! radius_setter radius ;;
         x <-! x_init_setter x_init ;;
         y <-! y_init_setter y_init ;;
         inr (r, x, y)) with
  | inl e => (h, inl e)
  | inr (r, x, y) =>
      let (h', res) := plot_attributes_setter h plot_attributes in
      (h', l <-! res ;; inr (mk r x y circles_per_column l))
  end.

(** [_validate_input_data]; on success the frame that was checked. *)
Definition _validate_input_data (input_data : pyval) (group : string)
           (order : list string) : result DataFrame :=
  match input_data with
  | PyDataFrame df =>
      if negb (in_columns group df)
      then inl (ValueError
                  ("DataFrame must contain the following column: " ++ group))
      else if forallb (fun value => in_columns value df) order
      then inr df
      else inl (ValueError
                  ("DataFrame must contain the following columns: "
                     ++ repr_list order))
  | _ => inl (TypeError "input_data must be of type pandas.DataFrame.")
  end.

(** The local variables of [circle_generator]: the two constants set
    before the loops, and those that change; [y] is unbound until its
    first assignment. *)
Definition circle_pad (self : t) : Qc := zq 3 * _radius self.

Definition group_pad (self : t) : Qc := zq 2 * _radius self + pad self.

Record locals := { x : Qc; y : option Qc }.

(** The [if]/[else] that opens the inner loop: where circle [i] goes. *)
Definition next_position (self : t) (i : Z) (lv : locals)
  : result (Qc * Qc) :=
  m <-! py_mod i (circles_per_column self) ;;
  if Z.eqb m 0
  then inr (if Z.eqb i 0
            then x lv + group_pad self
            else x lv + circle_pad self,
            _y_init self)
  else match y lv with
       | None => inl (UnboundLocalError "y")
       | Some y0 => inr (x lv, y0 + circle_pad self)
       end.

(** The [GroupLabel(...)] of the last pass, its arguments in order. *)
Definition group_label (self : t) (h : heap) (group : cell)
           (data : DataFrame) (point_history : CirclePointHistory.t)
  : result GroupLabel.t :=
  attributes <-! match dict_get (h (_plot_attributes self)) group with
                 | None => inl (KeyError group)
                 | Some v => inr v
                 end ;;
  sublabel <-! PlotAttributes.label attributes ;;
  lx <-! py_div (py_sum (CirclePointHistory.x point_history))
                (zq (py_len (CirclePointHistory.x point_history))) ;;
  mx <-! py_max (CirclePointHistory.x point_history) ;;
  inr (GroupLabel.mk
         group sublabel (shape0 data) lx
         (_y_init self + circle_pad self * zq (circles_per_column self))
         (mx + group_pad self)).

(** The body of the inner loop, for [i, row] of the enumeration. *)
Definition place_row (self : t) (h : heap) (group : cell)
           (data : DataFrame) (i_row : Z * Row)
           (st : locals * CirclePointHistory.t)
  : trace (locals * CirclePointHistory.t) :=
  let '(i, row) := i_row in
  let '(lv, point_history) := st in
  xy <-~ lift (next_position self i lv) ;;
  let point_history' :=
    CirclePointHistory.add_point point_history (fst xy) (snd xy) in
  _ <-~ yield (Circle (CircleAttributes.mk
                         group (shape0 data) row (fst xy) (snd xy))) ;;
  _ <-~ (if Z.eqb (i + 1) (shape0 data)
         then
           lab <-~ lift (group_label self h group data point_history') ;;
           yield (Label lab)
         else tret tt) ;;
  tret ({| x := fst xy; y := Some (snd xy) |}, point_history').

(** The body of the outer loop, for [group, data] of the groupby. *)
Definition place_group `{PandasSort} (self : t) (h : heap)
           (order : list string) (g : cell * DataFrame) (lv : locals)
  : trace locals :=
  let '(group, data) := g in
  let x1 :=
    if Qc_ltb (_x_init self) (x lv) then x lv + group_pad self else x lv in
  let point_history := CirclePointHistory.empty in
  let ordered_data := sort_values data order false in
  '(lv', _) <-~ for_ (place_row self h group data)
                     (enumerate (rows ordered_data))
                     ({| x := x1; y := y lv |}, point_history) ;;
  tret lv'.

(** The body of [circle_generator], run in heap [h]. *)
Definition circle_generator_body `{PandasSort} (self : t)
           (input_data : pyval) (group : string) (order : list string)
           (h : heap) : trace unit :=
  df <-~ lift (_validate_input_data input_data group order) ;;
  _ <-~ for_ (place_group self h order) (groupby df group false)
             {| x := _x_init self; y := None |} ;;
  tret tt.

(** A call of [circle_generator]: the function has a [yield] in it, so
    the call binds the arguments and returns a generator object. *)
Definition circle_generator `{PandasSort} (self : t) (input_data : pyval)
           (group : string) (order : list string) : generator :=
  Gen_created (circle_generator_body self input_data group order).

End CirclePlotter.

(** The keyword defaults of [CirclePlotter.__init__]. *)
Definition default_radius : Qc := tenths 2.
Definition default_x_init : Qc := zq 0.
Definition default_y_init : Qc := zq 1.
Definition default_circles_per_column : Z := 10.

(* ================================================================= *)
(** ** Vocabulary of the statements *)

Definition is_type_or_value_error (e : exn) : bool :=
  match e with
  | TypeError _ | ValueError _ => true
  | _ => false
  end.

(** The three errors of [_validate_input_data], with their messages. *)
Definition validation_errors (group : string) (order : list string)
  : list exn :=
  [TypeError "input_data must be of type pandas.DataFrame.";
   ValueError ("DataFrame must contain the following column: " ++ group);
   ValueError ("DataFrame must contain the following columns: "
                 ++ repr_list order)].

(** The dataset is no data frame, or the group column or one of the order
    columns is not among its columns. *)
Definition invalid_input (input_data : pyval) (group : string)
           (order : list string) : Prop :=
  match input_data with
  | PyDataFrame df =>
      in_columns group df = false
      \/ exists c, In c order /\ in_columns c df = false
  | _ => True
  end.

(** The group identifier of a row of [df]. *)
Definition group_key (df : DataFrame) (group : string) (r : Row) : cell :=
  cell_at (columns df) r group.

(** The records of group [k], in input order. *)
Definition group_rows (df : DataFrame) (group : string) (k : cell)
  : list Row :=
  filter (fun r => cell_eqb (group_key df group r) k) (rows df).

(** The dict of [self] has a [PlotAttributes] object for group [k]. *)
Definition styled (self : CirclePlotter.t) (h : heap) (k : cell) : Prop :=
  exists c a l,
    dict_get (h (CirclePlotter._plot_attributes self)) k
    = Some (PyPlotAttributes c a l).

(** A call the generator runs to its end: the columns exist,
    [circles_per_column] is not zero, every group of the data has its
    style. *)
Record valid_call (self : CirclePlotter.t) (h : heap) (df : DataFrame)
       (group : string) (order : list string) : Prop := {
  valid_group : in_columns group df = true;
  valid_order : forallb (fun c => in_columns c df) order = true;
  valid_per_column : CirclePlotter.circles_per_column self <> 0%Z;
  valid_styles :
    forall r, In r (rows df) -> styled self h (group_key df group r)
}.

(** The items of a whole iteration, and the circles among them. *)
Definition emitted `{PandasSort} (self : CirclePlotter.t) (h : heap)
           (df : DataFrame) (group : string) (order : list string)
  : list item :=
  fst (consume h (CirclePlotter.circle_generator
                    self (PyDataFrame df) group order)).

Fixpoint circles (out : list item) : list CircleAttributes.t :=
  match out with
  | [] => []
  | Circle c :: out' => c :: circles out'
  | Label _ :: out' => circles out'
  end.

Definition item_group (it : item) : cell :=
  match it with
  | Circle c => CircleAttributes.group c
  | Label g => GroupLabel.group_label g
  end.

(** [group_run out k cs lab]: the items of group [k] in [out] are the
    circles [cs] and then the label [lab], side by side; nothing of group
    [k] comes before or after. *)
Definition group_run (out : list item) (k : cell)
           (cs : list CircleAttributes.t) (lab : GroupLabel.t) : Prop :=
  exists pre post,
    out = pre ++ map Circle cs ++ Label lab :: post
    /\ Forall (fun c => CircleAttributes.group c = k) cs
    /\ GroupLabel.group_label lab = k
    /\ Forall (fun it => item_group it <> k) pre
    /\ Forall (fun it => item_group it <> k) post.

(** Consecutive circles: the second continues the column of the first, or
    it opens a column further right. *)
Definition same_column (self : CirclePlotter.t)
           (c1 c2 : CircleAttributes.t) : Prop :=
  CircleAttributes.group c2 = CircleAttributes.group c1
  /\ CircleAttributes.x c2 = CircleAttributes.x c1
  /\ CircleAttributes.y c2
     = CircleAttributes.y c1 + zq 3 * CirclePlotter._radius self.

Definition next_column (self : CirclePlotter.t)
           (c1 c2 : CircleAttributes.t) : Prop :=
  CircleAttributes.x c1 < CircleAttributes.x c2
  /\ CircleAttributes.y c2 = CirclePlotter._y_init self.

(** The members of a list of numbers, each once. *)
Definition is_distinct_of (s l : list Qc) : Prop :=
  NoDup s /\ forall v, In v s <-> In v l.

Definition is_max_of (m : Qc) (l : list Qc) : Prop :=
  In m l /\ forall v, In v l -> v <= m.

(** The arithmetic mean of a list of numbers, as the specification has
    it: their sum over their number.  It is written apart from [py_sum]
    and [py_len], the code's [sum] and [len], to be compared with them. *)
Definition arithmetic_mean (l : list Qc) : Qc :=
  fold_right Qcplus 0 l / zq (Z.of_nat (List.length l)).

(* ================================================================= *)
(** ** The layout as a function

    A device of the proofs.  What a run without exception yields, written
    without the monad: the circles of a group from the index, the position
    and the rows left, the label from the points recorded, the groups one
    after the other.  The run of the generator body on a valid call is
    shown equal to it ([circle_generator_body_ok]), and the statements
    about the generator are read off it. *)

Fixpoint layout_rows (self : CirclePlotter.t) (group : cell) (n : Z)
         (i : Z) (x y : Qc) (rs : list Row) : list CircleAttributes.t :=
  match rs with
  | [] => []
  | r :: rs' =>
      let x' :=
        if Z.eqb (i mod CirclePlotter.circles_per_column self) 0
        then (if Z.eqb i 0
              then x + CirclePlotter.group_pad self
              else x + CirclePlotter.circle_pad self)
        else x in
      let y' :=
        if Z.eqb (i mod CirclePlotter.circles_per_column self) 0
        then CirclePlotter._y_init self
        else y + CirclePlotter.circle_pad self in
      CircleAttributes.mk group n r x' y'
        :: layout_rows self group n (i + 1) x' y' rs'
  end.

Definition record_points (ph : CirclePointHistory.t)
           (cs : list CircleAttributes.t) : CirclePointHistory.t :=
  fold_left (fun ph c =>
               CirclePointHistory.add_point
                 ph (CircleAttributes.x c) (CircleAttributes.y c))
            cs ph.

Definition final_locals (lv : CirclePlotter.locals)
           (cs : list CircleAttributes.t) : CirclePlotter.locals :=
  fold_left (fun _ c =>
               {| CirclePlotter.x := CircleAttributes.x c;
                  CirclePlotter.y := Some (CircleAttributes.y c) |})
            cs lv.

Definition sublabel_of (self : CirclePlotter.t) (h : heap) (k : cell)
  : pyval :=
  match dict_get (h (CirclePlotter._plot_attributes self)) k with
  | Some (PyPlotAttributes _ _ l) => l
  | _ => PyNone
  end.

Definition max_or (d : Qc) (s : list Qc) : Qc :=
  match py_max s with
  | inr m => m
  | inl _ => d
  end.

Definition label_for (self : CirclePlotter.t) (h : heap) (k : cell) (n : Z)
           (ph : CirclePointHistory.t) : GroupLabel.t :=
  let xs := CirclePointHistory.x ph in
  GroupLabel.mk
    k (sublabel_of self h k) n
    (py_sum xs / zq (py_len xs))
    (CirclePlotter._y_init self
     + CirclePlotter.circle_pad self
       * zq (CirclePlotter.circles_per_column self))
    (max_or 0 xs + CirclePlotter.group_pad self).

(** The items of one group: its circles and its label. *)
Definition block : Type := (list CircleAttributes.t * GroupLabel.t)%type.

Definition block_items (b : block) : list item :=
  map Circle (fst b) ++ [Label (snd b)].

Definition flatten (bs : list block) : list item :=
  List.concat (map block_items bs).

Definition group_start (self : CirclePlotter.t) (x0 : Qc) : Qc :=
  if Qc_ltb (CirclePlotter._x_init self) x0
  then x0 + CirclePlotter.group_pad self
  else x0.

Definition layout_group `{PandasSort} (self : CirclePlotter.t) (h : heap)
           (order : list string) (g : cell * DataFrame) (x0 : Qc) : block :=
  let cs :=
    layout_rows self (fst g) (shape0 (snd g)) 0 (group_start self x0) 0
                (rows (sort_values (snd g) order false)) in
  (cs, label_for self h (fst g) (shape0 (snd g))
                 (record_points CirclePointHistory.empty cs)).

Definition last_x (x0 : Qc) (cs : list CircleAttributes.t) : Qc :=
  fold_left (fun _ c => CircleAttributes.x c) cs x0.

Fixpoint layout_groups `{PandasSort} (self : CirclePlotter.t) (h : heap)
         (order : list string) (gs : list (cell * DataFrame)) (x0 : Qc)
  : list block :=
  match gs with
  | [] => []
  | g :: gs' =>
      let b := layout_group self h order g x0 in
      b :: layout_groups self h order gs'
                         (last_x (group_start self x0) (fst b))
  end.

(** Each circle against the one before it. *)
Definition follows (self : CirclePlotter.t) (c1 c2 : CircleAttributes.t)
  : Prop :=
  same_column self c1 c2 \/ next_column self c1 c2.

(** An entry of the caller's dict before and after the setter: the same
    key, and for the three elements of the old value the [PlotAttributes]
    object made of them. *)
Definition converted_entry (old new : cell * pyval) : Prop :=
  fst new = fst old
  /\ exists color alpha label,
      as_sequence (snd old) = Some [color; alpha; label]
      /\ snd new = PyPlotAttributes color alpha label.

(** The effect of a successful assignment of the dict object [l]: what the
    plotter keeps is that object; every entry of it has been converted;
    no other object has changed; and assigning the object once more fails
    the list/tuple check as soon as it has an entry. *)
Definition assigned_in_place `{Matplotlib} (h : heap) (l : ref)
           (h' : heap) (kept : ref) : Prop :=
  kept = l
  /\ Forall2 converted_entry (h l) (h' l)
  /\ (forall l0, l0 <> l -> h' l0 = h l0)
  /\ (h l <> [] ->
      exists msg,
        CirclePlotter.plot_attributes_setter h' (PyDict l)
        = (h', inl (TypeError msg))).

(* ================================================================= *)
(** ** A small data set, for the examples *)

(** Colour names are the colours. *)
Definition example_colors : Matplotlib :=
  fun v => match v with PyStr _ => true | _ => false end.

Definition example_row (i : Z) (party : string) (votes : Z) : Row :=
  {| Index := i; cells := [CStr party; CNum (zq votes)] |}.

(** Three records of party A, two of them with the same votes, and one of
    party B in between. *)
Definition example_frame : DataFrame :=
  {| columns := ["party"; "votes"];
     rows := [example_row 0 "A" 5; example_row 1 "B" 3;
              example_row 2 "A" 7; example_row 3 "A" 5] |}.

(** The dict a caller passes in, at address 0 of [example_heap]. *)
Definition example_styles : dict :=
  [(CStr "A", PyTuple [PyStr "red"; PyFloat (tenths 5); PyStr "Party A"]);
   (CStr "B", PyList [PyStr "blue"; PyInt 1; PyStr "Party B"])].

Definition example_heap : heap :=
  fun l => match l with O => example_styles | _ => [] end.

(** The same dict once the constructor has run. *)
Definition example_heap' : heap :=
  fun l =>
    match l with
    | O => [(CStr "A",
             PyPlotAttributes (PyStr "red") (PyFloat (tenths 5))
                              (PyStr "Party A"));
            (CStr "B",
             PyPlotAttributes (PyStr "blue") (PyInt 1) (PyStr "Party B"))]
    | _ => []
    end.

(** A plotter with columns of two circles. *)
Definition example_plotter : CirclePlotter.t :=
  CirclePlotter.mk default_radius default_x_init default_y_init 2 O.



(** An item in short: the index of the record and the position of its
    circle, or -1 and the [label_x] and [gridline_x] of a label. *)
Definition in_short (it : item) : Z * Q * Q :=
  match it with
  | Circle c =>
      (Index (CircleAttributes.row c),
       this (CircleAttributes.x c), this (CircleAttributes.y c))
  | Label g =>
      ((-1)%Z, this (GroupLabel.label_x g), this (GroupLabel.gridline_x g))
  end.

(* ================================================================= *)
(** ** Further vocabulary *)

(** The two ways the lookup [self.plot_attributes[group].label] fails:
    the dict has no entry for a group, or the entry is no
    [PlotAttributes] object. *)
Definition style_error (self : CirclePlotter.t) (h : heap) (e : exn)
  : Prop :=
  (exists k,
      e = KeyError k
      /\ dict_get (h (CirclePlotter._plot_attributes self)) k = None)
  \/ (e = AttributeError "label"
      /\ exists k v,
          dict_get (h (CirclePlotter._plot_attributes self)) k = Some v
          /\ forall c a l, v <> PyPlotAttributes c a l).

(** A circle without the record it stands for, and an item likewise. *)
Definition circle_place (c : CircleAttributes.t) : cell * Z * Qc * Qc :=
  (CircleAttributes.group c, CircleAttributes.count c,
   CircleAttributes.x c, CircleAttributes.y c).

Definition place (it : item) : (cell * Z * Qc * Qc) + GroupLabel.t :=
  match it with
  | Circle c => inl (circle_place c)
  | Label g => inr g
  end.

(** What the setter of [plot_attributes] lets through as the value of an
    entry: a list or a tuple of three, a colour first, then a number that
    is not below zero. *)
Definition accepted_style `{Matplotlib} (v : pyval) : bool :=
  match as_sequence v with
  | Some [color; alpha; _] =>
      is_color_like color
      && match as_number alpha with
         | Some a => negb (Qc_ltb a 0)
         | None => false
         end
  | _ => false
  end.

(* ================================================================= *)
(** ** The radius and the cache of [pad]

    The two attributes behind the properties [radius] and [pad], to state
    that the cache never goes stale: [CirclePlotter.pad] above is what
    the property returns whatever was assigned and read before. *)
Module PadCache.

Record t := mk { _radius : Qc; _pad : option Qc }.

(** [@radius.setter]: it writes both attributes, so the object after a
    successful call does not depend on the object before. *)
Definition radius_setter (value : Qc) : result t :=
  if Qc_leb value 0
  then inl (ValueError "Radius must be greater than 0.")
  else inr (mk value None).

(** [@property pad]: the value returned and the object after the call. *)
Definition pad (self : t) : Qc * t :=
  match _pad self with
  | None =>
      let p := zq 2 * _radius self in
      (p, mk (_radius self) (Some p))
  | Some p => (p, self)
  end.

End PadCache.

(** What a caller does with the two properties: assign [radius] (and go
    on after a rejected value) or read [pad]. *)
Inductive access :=
| Assign_radius (value : Qc)
| Read_pad.

Definition access_step (self : PadCache.t) (a : access) : PadCache.t :=
  match a with
  | Assign_radius value =>
      match PadCache.radius_setter value with
      | inr self' => self'
      | inl _ => self
      end
  | Read_pad => snd (PadCache.pad self)
  end.

(** The radius after a history of accesses: the last value assigned that
    was positive. *)
Fixpoint last_assigned (r : Qc) (l : list access) : Qc :=
  match l with
  | [] => r
  | Assign_radius value :: l' =>
      last_assigned (if Qc_leb value 0 then r else value) l'
  | Read_pad :: l' => last_assigned r l'
  end.

(* ================================================================= *)
(** ** More data for the examples *)

(** A plotter whose [circles_per_column] is zero. *)
Definition zero_plotter : CirclePlotter.t :=
  CirclePlotter.mk default_radius default_x_init default_y_init 0 O.


(** A dict whose second entry has a string for its opacity. *)
Definition bad_heap : heap :=
  fun l =>
    match l with
    | O => [(CStr "A",
             PyTuple [PyStr "red"; PyFloat (tenths 5); PyStr "Party A"]);
            (CStr "B",
             PyList [PyStr "blue"; PyStr "opaque"; PyStr "Party B"])]
    | _ => []
    end.

(** A rejected assignment and an accepted one, [pad] read before and
    after. *)
Definition example_accesses : list access :=
  [Read_pad; Assign_radius (zq 0); Assign_radius (zq 1); Read_pad].



(** A frame with the columns of the example and no records. *)
Definition empty_frame : DataFrame :=
  {| columns := ["party"; "votes"]; rows := [] |}.

(* ================================================================= *)
(** * Proofs *)
(* ================================================================= *)
(** ** Numbers: the comparisons and a little arithmetic *)

Lemma Qc_eqb_eq (a b : Qc) : Qc_eqb a b = true <-> a = b.
Proof.
  unfold Qc_eqb. rewrite Qceq_alt.
  destruct (a ?= b); split; congruence.
Qed.

Lemma Qc_eqb_refl (a : Qc) : Qc_eqb a a = true.
Proof. now apply Qc_eqb_eq. Qed.

Lemma Qc_ltb_lt (a b : Qc) : Qc_ltb a b = true <-> a < b.
Proof.
  unfold Qc_ltb. rewrite Qclt_alt.
  destruct (a ?= b); split; congruence.
Qed.

Lemma Qc_leb_le (a b : Qc) : Qc_leb a b = true <-> a <= b.
Proof.
  unfold Qc_leb. rewrite Qcle_alt.
  destruct (a ?= b); split; congruence.
Qed.

Lemma Qc_ltb_ge (a b : Qc) : Qc_ltb a b = false <-> b <= a.
Proof.
  rewrite <- not_true_iff_false, Qc_ltb_lt. split.
  - apply Qcnot_lt_le.
  - intros Hle Hlt. exact (Qcle_not_lt _ _ Hle Hlt).
Qed.

Lemma this_zq (z : Z) : (this (zq z) == inject_Z z)%Q.
Proof. apply Qred_correct. Qed.

Lemma Qc_lt_add_pos (a p : Qc) : 0 < p -> a < a + p.
Proof.
  intros Hp. apply Qclt_minus_iff.
  replace (a + p + - a) with p by ring. exact Hp.
Qed.

Lemma zq_pos (z : Z) : (0 < z)%Z -> 0 < zq z.
Proof.
  intros Hz. unfold Qclt. rewrite this_zq.
  change (inject_Z 0 < inject_Z z)%Q. now rewrite <- Zlt_Qlt.
Qed.

Lemma Qc_mul_pos (a b : Qc) : 0 < a -> 0 < b -> 0 < a * b.
Proof.
  intros Ha Hb. replace 0 with (0 * b) by ring.
  now apply Qcmult_lt_compat_r.
Qed.

Lemma Qc_add_pos (a b : Qc) : 0 < a -> 0 < b -> 0 < a + b.
Proof.
  intros Ha Hb. apply Qclt_trans with a; [exact Ha |].
  now apply Qc_lt_add_pos.
Qed.

Lemma circle_pad_pos (self : CirclePlotter.t) :
  0 < CirclePlotter._radius self -> 0 < CirclePlotter.circle_pad self.
Proof.
  intros Hr. unfold CirclePlotter.circle_pad.
  apply Qc_mul_pos; [now apply zq_pos | exact Hr].
Qed.

Lemma group_pad_pos (self : CirclePlotter.t) :
  0 < CirclePlotter._radius self -> 0 < CirclePlotter.group_pad self.
Proof.
  intros Hr. unfold CirclePlotter.group_pad, CirclePlotter.pad.
  assert (0 < zq 2 * CirclePlotter._radius self)
    by (apply Qc_mul_pos; [now apply zq_pos | exact Hr]).
  now apply Qc_add_pos.
Qed.

Lemma cell_eqb_eq (a b : cell) : cell_eqb a b = true <-> a = b.
Proof.
  destruct a as [p | s], b as [q | t]; cbn.
  - rewrite Qc_eqb_eq. split; congruence.
  - split; discriminate.
  - split; discriminate.
  - rewrite String.eqb_eq. split; congruence.
Qed.

Lemma cell_eqb_refl (a : cell) : cell_eqb a a = true.
Proof. now apply cell_eqb_eq. Qed.

Lemma cell_eqb_neq (a b : cell) : cell_eqb a b = false <-> a <> b.
Proof. rewrite <- not_true_iff_false, cell_eqb_eq. tauto. Qed.

(* ================================================================= *)
(** ** The run of the generator body *)

Lemma set_add_not_nil (v : Qc) (s : list Qc) : set_add v s <> [].
Proof.
  unfold set_add. destruct (existsb (Qc_eqb v) s) eqn:E.
  - destruct s; [discriminate E | discriminate].
  - destruct s; discriminate.
Qed.

Lemma record_points_snoc ph cs c :
  record_points ph (cs ++ [c])
  = CirclePointHistory.add_point (record_points ph cs)
      (CircleAttributes.x c) (CircleAttributes.y c).
Proof. unfold record_points. now rewrite fold_left_app. Qed.

Lemma record_points_x_not_nil ph cs :
  cs <> [] -> CirclePointHistory.x (record_points ph cs) <> [].
Proof.
  destruct cs as [| c cs] using rev_ind; [congruence |].
  intros _. rewrite record_points_snoc. cbn. apply set_add_not_nil.
Qed.

Lemma py_div_len (a : Qc) (s : list Qc) :
  s <> [] -> py_div a (zq (py_len s)) = inr (a / zq (py_len s)).
Proof.
  intros Hs. unfold py_div.
  destruct (Qc_eqb (zq (py_len s)) 0) eqn:E; [| reflexivity].
  apply Qc_eqb_eq in E. exfalso.
  assert (Hpos : 0 < zq (py_len s)).
  { apply zq_pos. unfold py_len. destruct s; [congruence | cbn; lia]. }
  rewrite E in Hpos. exact (Qclt_not_eq _ _ Hpos eq_refl).
Qed.

Lemma py_max_max_or (d : Qc) (s : list Qc) :
  s <> [] -> py_max s = inr (max_or d s).
Proof. destruct s; [congruence | reflexivity]. Qed.

Lemma py_mod_ok (i d : Z) : d <> 0%Z -> py_mod i d = inr (i mod d)%Z.
Proof.
  intros Hd. unfold py_mod.
  destruct (Z.eqb_spec d 0); [contradiction | reflexivity].
Qed.

(** [y] is read only in a pass that does not open a column, and such a
    pass is never the first one. *)
Lemma next_position_ok (self : CirclePlotter.t) (i : Z)
      (lv : CirclePlotter.locals) (y0 : Qc) :
  CirclePlotter.circles_per_column self <> 0%Z ->
  (i <> 0%Z -> CirclePlotter.y lv = Some y0) ->
  CirclePlotter.next_position self i lv
  = inr (if Z.eqb (i mod CirclePlotter.circles_per_column self) 0
         then (if Z.eqb i 0
               then CirclePlotter.x lv + CirclePlotter.group_pad self
               else CirclePlotter.x lv + CirclePlotter.circle_pad self)
         else CirclePlotter.x lv,
         if Z.eqb (i mod CirclePlotter.circles_per_column self) 0
         then CirclePlotter._y_init self
         else y0 + CirclePlotter.circle_pad self).
Proof.
  intros Hcpc Hy. unfold CirclePlotter.next_position.
  rewrite (py_mod_ok _ _ Hcpc). cbn [rbind].
  destruct (Z.eqb_spec (i mod CirclePlotter.circles_per_column self) 0)
    as [Hm | Hm]; [reflexivity |].
  rewrite Hy; [reflexivity |].
  intros ->. now rewrite Z.mod_0_l in Hm.
Qed.

Lemma group_label_ok (self : CirclePlotter.t) (h : heap) (group : cell)
      (data : DataFrame) (ph : CirclePointHistory.t) :
  styled self h group ->
  CirclePointHistory.x ph <> [] ->
  CirclePlotter.group_label self h group data ph
  = inr (label_for self h group (shape0 data) ph).
Proof.
  intros (c & a & l & Hstyle) Hph.
  unfold CirclePlotter.group_label, label_for, sublabel_of.
  rewrite Hstyle. cbn [rbind PlotAttributes.label].
  rewrite (py_div_len _ _ Hph). cbn [rbind].
  rewrite (py_max_max_or 0 _ Hph). reflexivity.
Qed.

(** The inner loop, from any index on: no exception, the circles of
    [layout_rows], and the label after the last of them. *)
Lemma for_place_row (self : CirclePlotter.t) (h : heap) (group : cell)
      (data : DataFrame) :
  CirclePlotter.circles_per_column self <> 0%Z ->
  styled self h group ->
  forall rs i lv ph y0,
    (i + Z.of_nat (List.length rs) = shape0 data)%Z ->
    (i <> 0%Z -> CirclePlotter.y lv = Some y0) ->
    for_ (CirclePlotter.place_row self h group data)
         (enumerate_from i rs) (lv, ph)
    = (map Circle (layout_rows self group (shape0 data) i
                               (CirclePlotter.x lv) y0 rs)
         ++ match rs with
            | [] => []
            | _ :: _ =>
                [Label (label_for self h group (shape0 data)
                          (record_points ph
                             (layout_rows self group (shape0 data) i
                                          (CirclePlotter.x lv) y0 rs)))]
            end,
       inr (final_locals lv
              (layout_rows self group (shape0 data) i
                           (CirclePlotter.x lv) y0 rs),
            record_points ph
              (layout_rows self group (shape0 data) i
                           (CirclePlotter.x lv) y0 rs))).
Proof.
  intros Hcpc Hstyle.
  induction rs as [| r rs IH]; intros i lv ph y0 Hlen Hy.
  - reflexivity.
  - cbn [enumerate_from for_ layout_rows].
    unfold CirclePlotter.place_row at 1.
    rewrite (next_position_ok self i lv y0 Hcpc Hy).
    cbn [lift tbind yield fst snd app].
    set (x' := if Z.eqb (i mod CirclePlotter.circles_per_column self) 0
               then _ else _).
    set (y' := if Z.eqb (i mod CirclePlotter.circles_per_column self) 0
               then _ else _).
    set (c0 := CircleAttributes.mk group (shape0 data) r x' y').
    cbn [List.length] in Hlen.
    specialize (IH (i + 1)%Z
                   {| CirclePlotter.x := x'; CirclePlotter.y := Some y' |}
                   (CirclePointHistory.add_point ph x' y') y').
    cbn [CirclePlotter.x CirclePlotter.y] in IH.
    destruct rs as [| r' rs'].
    + (* the last record of the group *)
      replace (i + 1 =? shape0 data)%Z with true
        by (symmetry; apply Z.eqb_eq; cbn in Hlen; lia).
      rewrite group_label_ok;
        [| exact Hstyle | cbn; apply set_add_not_nil].
      reflexivity.
    + replace (i + 1 =? shape0 data)%Z with false
        by (symmetry; apply Z.eqb_neq; cbn [List.length] in Hlen; lia).
      cbn [tret tbind app].
      rewrite IH; [| cbn [List.length] in *; lia | reflexivity].
      reflexivity.
Qed.

Lemma final_locals_x lv cs :
  CirclePlotter.x (final_locals lv cs) = last_x (CirclePlotter.x lv) cs.
Proof.
  unfold final_locals, last_x. revert lv.
  induction cs as [| c cs IH]; intros lv; [reflexivity |].
  cbn [fold_left]. now rewrite IH.
Qed.

Lemma first_occurrences_In (k : cell) (l : list cell) :
  In k (first_occurrences l) <-> In k l.
Proof.
  induction l as [| a l IH]; [reflexivity |].
  cbn [first_occurrences In].
  rewrite filter_In, IH, negb_true_iff, cell_eqb_neq.
  destruct (cell_eqb k a) eqn:E.
  - apply cell_eqb_eq in E. subst. tauto.
  - apply cell_eqb_neq in E. split; [tauto |].
    intros [-> | Hin]; [contradiction | tauto].
Qed.

Lemma NoDup_filter {A} (f : A -> bool) (l : list A) :
  NoDup l -> NoDup (filter f l).
Proof.
  induction 1 as [| a l Hn Hd IH]; cbn; [constructor |].
  destruct (f a); [| exact IH].
  constructor; [| exact IH]. rewrite filter_In. tauto.
Qed.

Lemma first_occurrences_NoDup (l : list cell) : NoDup (first_occurrences l).
Proof.
  induction l as [| a l IH]; cbn [first_occurrences]; constructor.
  - rewrite filter_In, negb_true_iff, cell_eqb_neq. tauto.
  - now apply NoDup_filter.
Qed.

Lemma groupby_keys (df : DataFrame) (group : string) (s : bool) :
  map fst (groupby df group s)
  = first_occurrences (map (group_key df group) (rows df)).
Proof.
  unfold groupby. rewrite map_map. cbn [fst]. apply map_id.
Qed.

Lemma groupby_In (df : DataFrame) (group : string) (s : bool) g :
  In g (groupby df group s) ->
  In (fst g) (map (group_key df group) (rows df))
  /\ columns (snd g) = columns df
  /\ rows (snd g) = group_rows df group (fst g).
Proof.
  unfold groupby. rewrite in_map_iff. intros (k & <- & Hk).
  rewrite first_occurrences_In in Hk. cbn [fst snd columns rows].
  repeat split. exact Hk.
Qed.

Lemma group_rows_not_nil (df : DataFrame) (group : string) (k : cell) :
  In k (map (group_key df group) (rows df)) -> group_rows df group k <> [].
Proof.
  rewrite in_map_iff. intros (r & <- & Hr) Hnil.
  assert (Hin : In r (group_rows df group (group_key df group r))).
  { unfold group_rows. rewrite filter_In. split; [exact Hr |].
    apply cell_eqb_refl. }
  rewrite Hnil in Hin. exact Hin.
Qed.

(** The outer loop body on a group that has a record and a style. *)
Lemma place_group_ok `{P : PandasSort} `{!PandasSortSpec P}
      (self : CirclePlotter.t) (h : heap) (order : list string)
      (g : cell * DataFrame) (lv : CirclePlotter.locals) :
  CirclePlotter.circles_per_column self <> 0%Z ->
  styled self h (fst g) ->
  rows (snd g) <> [] ->
  exists lv',
    CirclePlotter.place_group self h order g lv
    = (block_items (layout_group self h order g (CirclePlotter.x lv)),
       inr lv')
    /\ CirclePlotter.x lv'
       = last_x (group_start self (CirclePlotter.x lv))
                (fst (layout_group self h order g (CirclePlotter.x lv))).
Proof.
  intros Hcpc Hstyle Hrows. destruct g as [k data]. cbn [fst snd] in *.
  unfold CirclePlotter.place_group, enumerate.
  pose proof (Permutation_length
                (sort_values_Permutation data order false)) as Hlen.
  rewrite (for_place_row self h k data Hcpc Hstyle _ 0%Z _ _ 0).
  - cbn [CirclePlotter.x tbind tret].
    fold (group_start self (CirclePlotter.x lv)).
    exists (final_locals
              {| CirclePlotter.x := group_start self (CirclePlotter.x lv);
                 CirclePlotter.y := CirclePlotter.y lv |}
              (fst (layout_group self h order (k, data)
                                 (CirclePlotter.x lv)))).
    split.
    + unfold block_items, layout_group. cbn [fst snd].
      destruct (rows (sort_values data order false)) as [| r rs] eqn:E.
      * exfalso. cbn in Hlen. destruct (rows data); [congruence | discriminate].
      * rewrite app_nil_r. reflexivity.
    + rewrite final_locals_x. reflexivity.
  - unfold shape0. rewrite Hlen. lia.
  - congruence.
Qed.

Lemma for_place_group `{P : PandasSort} `{!PandasSortSpec P}
      (self : CirclePlotter.t) (h : heap) (order : list string) :
  CirclePlotter.circles_per_column self <> 0%Z ->
  forall gs lv,
    Forall (fun g => styled self h (fst g) /\ rows (snd g) <> []) gs ->
    exists lv',
      for_ (CirclePlotter.place_group self h order) gs lv
      = (flatten (layout_groups self h order gs (CirclePlotter.x lv)),
         inr lv').
Proof.
  intros Hcpc. induction gs as [| g gs IH]; intros lv Hgs.
  - exists lv. reflexivity.
  - inversion Hgs as [| ? ? [Hstyle Hrows] Hgs']; subst.
    destruct (place_group_ok self h order g lv Hcpc Hstyle Hrows)
      as (lv1 & Hrun & Hx).
    destruct (IH lv1 Hgs') as (lv2 & Hrest).
    exists lv2. cbn [for_ layout_groups].
    rewrite Hrun. cbn [tbind]. rewrite Hrest, Hx. reflexivity.
Qed.

Lemma validate_ok (df : DataFrame) (group : string) (order : list string) :
  in_columns group df = true ->
  forallb (fun c => in_columns c df) order = true ->
  CirclePlotter._validate_input_data (PyDataFrame df) group order = inr df.
Proof.
  intros Hg Ho. unfold CirclePlotter._validate_input_data.
  now rewrite Hg, Ho.
Qed.

(** A valid call runs to the end and yields the blocks of the layout. *)
Lemma circle_generator_body_ok `{P : PandasSort} `{!PandasSortSpec P}
      (self : CirclePlotter.t) (h : heap) (df : DataFrame)
      (group : string) (order : list string) :
  valid_call self h df group order ->
  CirclePlotter.circle_generator_body self (PyDataFrame df) group order h
  = (flatten (layout_groups self h order (groupby df group false)
                            (CirclePlotter._x_init self)),
     inr tt).
Proof.
  intros [Hg Ho Hcpc Hst]. unfold CirclePlotter.circle_generator_body.
  rewrite (validate_ok df group order Hg Ho). cbn [lift tbind].
  destruct (for_place_group self h order Hcpc (groupby df group false)
              {| CirclePlotter.x := CirclePlotter._x_init self;
                 CirclePlotter.y := None |}) as (lv' & Hrun).
  - apply Forall_forall. intros g Hin.
    destruct (groupby_In df group false g Hin) as (Hk & _ & Hr).
    split.
    + apply in_map_iff in Hk. destruct Hk as (r & <- & Hr'). now apply Hst.
    + rewrite Hr. now apply group_rows_not_nil.
  - rewrite Hrun. cbn [CirclePlotter.x tbind tret]. now rewrite app_nil_r.
Qed.

Lemma emitted_ok `{P : PandasSort} `{!PandasSortSpec P}
      (self : CirclePlotter.t) (h : heap) (df : DataFrame)
      (group : string) (order : list string) :
  valid_call self h df group order ->
  consume h (CirclePlotter.circle_generator self (PyDataFrame df) group order)
  = (flatten (layout_groups self h order (groupby df group false)
                            (CirclePlotter._x_init self)),
     None).
Proof.
  intros Hv. unfold CirclePlotter.circle_generator, consume.
  now rewrite (circle_generator_body_ok self h df group order Hv).
Qed.

(* ================================================================= *)
(** ** The layout of one group *)

Section OneGroup.
Variable self : CirclePlotter.t.
Variables (group : cell) (n : Z).

Lemma layout_rows_length rs : forall i x y,
  List.length (layout_rows self group n i x y rs) = List.length rs.
Proof.
  induction rs as [| r rs IH]; intros i x y; [reflexivity |].
  cbn [layout_rows List.length]. now rewrite IH.
Qed.

Lemma layout_rows_row rs : forall i x y,
  map CircleAttributes.row (layout_rows self group n i x y rs) = rs.
Proof.
  induction rs as [| r rs IH]; intros i x y; [reflexivity |].
  cbn [layout_rows map CircleAttributes.row]. now rewrite IH.
Qed.

Lemma layout_rows_group rs : forall i x y,
  Forall (fun c => CircleAttributes.group c = group
                   /\ CircleAttributes.count c = n)
         (layout_rows self group n i x y rs).
Proof.
  induction rs as [| r rs IH]; intros i x y; cbn [layout_rows];
    constructor; [split; reflexivity | apply IH].
Qed.

(** Circle [j] of the rows laid out from index [i]: it opens a column at
    [y_init], or it sits [circle_pad] above the one before. *)
Lemma layout_rows_nth rs : forall i x y j c,
  nth_error (layout_rows self group n i x y rs) j = Some c ->
  if Z.eqb ((i + Z.of_nat j) mod CirclePlotter.circles_per_column self) 0
  then CircleAttributes.y c = CirclePlotter._y_init self
  else match j with
       | O => CircleAttributes.x c = x
              /\ CircleAttributes.y c = y + CirclePlotter.circle_pad self
       | S j' =>
           exists c',
             nth_error (layout_rows self group n i x y rs) j' = Some c'
             /\ CircleAttributes.x c = CircleAttributes.x c'
             /\ CircleAttributes.y c
                = CircleAttributes.y c' + CirclePlotter.circle_pad self
       end.
Proof.
  induction rs as [| r rs IH]; intros i x y j c Hnth.
  - destruct j; discriminate Hnth.
  - cbn [layout_rows] in *. destruct j as [| j].
    + cbn [nth_error] in Hnth. injection Hnth as <-.
      rewrite Z.add_0_r. cbn [CircleAttributes.x CircleAttributes.y].
      destruct (Z.eqb (i mod CirclePlotter.circles_per_column self) 0);
        [reflexivity | split; reflexivity].
    + cbn [nth_error] in Hnth. specialize (IH _ _ _ _ _ Hnth).
      replace (i + 1 + Z.of_nat j)%Z with (i + Z.of_nat (S j))%Z in IH
        by lia.
      destruct (Z.eqb ((i + Z.of_nat (S j))
                         mod CirclePlotter.circles_per_column self) 0);
        [exact IH |].
      destruct j as [| j].
      * eexists. split; [reflexivity |]. exact IH.
      * exact IH.
Qed.

(** Two circles in a row of the same group: the second opens a column,
    [circle_pad] to the right and at [y_init], or it goes on top of the
    first. *)
Lemma layout_rows_adjacent rs : forall i x y j c c',
  (0 <= i)%Z ->
  nth_error (layout_rows self group n i x y rs) j = Some c ->
  nth_error (layout_rows self group n i x y rs) (S j) = Some c' ->
  if Z.eqb ((i + Z.of_nat (S j))
              mod CirclePlotter.circles_per_column self) 0
  then CircleAttributes.x c'
       = CircleAttributes.x c + CirclePlotter.circle_pad self
       /\ CircleAttributes.y c' = CirclePlotter._y_init self
  else CircleAttributes.x c' = CircleAttributes.x c
       /\ CircleAttributes.y c'
          = CircleAttributes.y c + CirclePlotter.circle_pad self.
Proof.
  induction rs as [| r rs IH]; intros i x y j c c' Hi Hc Hc'.
  - destruct j; discriminate Hc.
  - cbn [layout_rows] in Hc, Hc'. destruct j as [| j].
    + cbn [nth_error] in Hc, Hc'. injection Hc as <-.
      destruct rs as [| r' rs]; [discriminate Hc' |].
      cbn [layout_rows nth_error] in Hc'. injection Hc' as <-.
      cbn [CircleAttributes.x CircleAttributes.y].
      replace (i + Z.of_nat 1)%Z with (i + 1)%Z by lia.
      destruct (Z.eqb ((i + 1) mod CirclePlotter.circles_per_column self) 0);
        [| split; reflexivity].
      destruct (Z.eqb_spec (i + 1) 0); [lia | split; reflexivity].
    + cbn [nth_error] in Hc, Hc'.
      replace (i + Z.of_nat (S (S j)))%Z with (i + 1 + Z.of_nat (S j))%Z
        by lia.
      eapply (IH (i + 1)%Z); [lia | exact Hc | exact Hc'].
Qed.
End OneGroup.

Lemma layout_rows_follows (self : CirclePlotter.t) (group : cell) (n : Z) :
  0 < CirclePlotter._radius self ->
  forall rs i c0,
    (0 < i)%Z ->
    CircleAttributes.group c0 = group ->
    Sorted (follows self)
           (c0 :: layout_rows self group n i (CircleAttributes.x c0)
                              (CircleAttributes.y c0) rs).
Proof.
  intros Hr. induction rs as [| r rs IH]; intros i c0 Hi Hg.
  - repeat constructor.
  - cbn [layout_rows]. constructor.
    + apply (IH (i + 1)%Z); [lia | reflexivity].
    + constructor. unfold follows, same_column, next_column.
      cbn [CircleAttributes.x CircleAttributes.y CircleAttributes.group].
      destruct (Z.eqb (i mod CirclePlotter.circles_per_column self) 0).
      * right. split; [| reflexivity].
        destruct (Z.eqb_spec i 0) as [-> | _]; [lia |].
        apply Qc_lt_add_pos. now apply circle_pad_pos.
      * left. split; [exact (eq_sym Hg) | split; reflexivity].
Qed.

Lemma group_start_ge (self : CirclePlotter.t) (x0 : Qc) :
  0 < CirclePlotter._radius self -> x0 <= group_start self x0.
Proof.
  intros Hr. unfold group_start.
  destruct (Qc_ltb (CirclePlotter._x_init self) x0).
  - apply Qclt_le_weak, Qc_lt_add_pos. now apply group_pad_pos.
  - apply Qcle_refl.
Qed.

(** The circles of a group, laid out from position [x1]: in order, and
    the first one to the right of [x1] at [y_init]. *)
Lemma layout_group_follows (self : CirclePlotter.t) (group : cell) (n : Z) :
  0 < CirclePlotter._radius self ->
  forall rs x1 y,
    Sorted (follows self) (layout_rows self group n 0 x1 y rs)
    /\ match layout_rows self group n 0 x1 y rs with
       | [] => True
       | c :: _ => x1 < CircleAttributes.x c
                   /\ CircleAttributes.y c = CirclePlotter._y_init self
       end.
Proof.
  intros Hr rs x1 y.
  destruct rs as [| r rs]; [split; [constructor | exact I] |].
  cbn [layout_rows]. rewrite Zmod_0_l. cbn [Z.eqb].
  split.
  - apply (layout_rows_follows self group n Hr rs 1%Z
             (CircleAttributes.mk group n r _ _)); [lia | reflexivity].
  - cbn. split; [| reflexivity].
    apply Qc_lt_add_pos. now apply group_pad_pos.
Qed.

(* ================================================================= *)
(** ** The layout of all groups *)

Lemma circles_app (l1 l2 : list item) :
  circles (l1 ++ l2) = circles l1 ++ circles l2.
Proof.
  induction l1 as [| [c | g] l1 IH]; cbn; [reflexivity | | exact IH].
  now rewrite IH.
Qed.

Lemma circles_map_Circle (cs : list CircleAttributes.t) :
  circles (map Circle cs) = cs.
Proof. induction cs as [| c cs IH]; cbn; [reflexivity | now rewrite IH]. Qed.

Lemma circles_flatten (bs : list block) :
  circles (flatten bs) = List.concat (map fst bs).
Proof.
  induction bs as [| b bs IH]; [reflexivity |].
  unfold flatten in *. cbn [map List.concat]. unfold block_items at 1.
  rewrite !circles_app, circles_map_Circle, IH. cbn. now rewrite app_nil_r.
Qed.

Lemma Sorted_app_hd {A} (R : A -> A -> Prop) (l1 l2 : list A) :
  Sorted R l1 -> Sorted R l2 ->
  (forall l a b l2', l1 = l ++ [a] -> l2 = b :: l2' -> R a b) ->
  Sorted R (l1 ++ l2).
Proof.
  intros H1 H2. induction H1 as [| a l1 Hs IH Hhd]; intros Hlink.
  - exact H2.
  - cbn. constructor.
    + apply IH. intros l a' b l2' -> ->.
      apply (Hlink (a :: l) a' b l2'); reflexivity.
    + destruct l1 as [| a1 l1].
      * destruct l2 as [| b l2']; constructor.
        apply (Hlink [] a b l2'); reflexivity.
      * constructor. now inversion Hhd.
Qed.

Lemma Sorted_weaken {A} (R R' : A -> A -> Prop) (l : list A) :
  (forall a b, R a b -> R' a b) -> Sorted R l -> Sorted R' l.
Proof.
  intros Himp. induction 1 as [| a l Hs IH Hhd]; constructor; [exact IH |].
  destruct Hhd; constructor. now apply Himp.
Qed.

Lemma last_x_snoc x0 l a : last_x x0 (l ++ [a]) = CircleAttributes.x a.
Proof. unfold last_x. now rewrite fold_left_app. Qed.

(** All circles of a run, in order: each continues the column of the one
    before or opens a column further right; the first is right of the start. *)
Lemma layout_groups_follows `{P : PandasSort} (self : CirclePlotter.t)
      (h : heap) (order : list string) :
  0 < CirclePlotter._radius self ->
  forall gs x0,
    Sorted (follows self)
           (List.concat (map fst (layout_groups self h order gs x0)))
    /\ match List.concat (map fst (layout_groups self h order gs x0)) with
       | [] => True
       | c :: _ => x0 < CircleAttributes.x c
                   /\ CircleAttributes.y c = CirclePlotter._y_init self
       end.
Proof.
  intros Hr. induction gs as [| g gs IH]; intros x0.
  - split; [constructor | exact I].
  - cbn [layout_groups map List.concat].
    set (cs := fst (layout_group self h order g x0)).
    destruct (IH (last_x (group_start self x0) cs)) as [Hrest Hhd].
    destruct (layout_group_follows self (fst g) (shape0 (snd g)) Hr
                (rows (sort_values (snd g) order false))
                (group_start self x0) 0) as [Hcs Hcs_hd].
    fold cs in Hcs, Hcs_hd. unfold layout_group in cs. cbn [fst] in cs.
    fold cs in Hcs, Hcs_hd.
    pose proof (group_start_ge self x0 Hr) as Hge.
    split.
    + apply Sorted_app_hd; [exact Hcs | exact Hrest |].
      intros l a b l2' Hl Hl2. rewrite Hl2 in Hhd.
      rewrite Hl, last_x_snoc in Hhd. right. exact Hhd.
    + destruct cs as [| c cs'] eqn:Ecs.
      * cbn [app]. cbn [last_x fold_left] in Hhd. unfold last_x in Hhd.
        cbn [fold_left] in Hhd.
        destruct (List.concat _) as [| c' ?]; [exact I |].
        destruct Hhd as [Hlt Hy]. split; [| exact Hy].
        exact (Qcle_lt_trans _ _ _ Hge Hlt).
      * cbn [app]. destruct Hcs_hd as [Hlt Hy]. split; [| exact Hy].
        exact (Qcle_lt_trans _ _ _ Hge Hlt).
Qed.

Lemma flatten_app (b1 b2 : list block) :
  flatten (b1 ++ b2) = flatten b1 ++ flatten b2.
Proof. unfold flatten. now rewrite map_app, concat_app. Qed.

Lemma layout_groups_app `{P : PandasSort} (self : CirclePlotter.t)
      (h : heap) (order : list string) gs1 gs2 :
  forall x0, exists x1,
    layout_groups self h order (gs1 ++ gs2) x0
    = layout_groups self h order gs1 x0 ++ layout_groups self h order gs2 x1.
Proof.
  induction gs1 as [| g gs1 IH]; intros x0.
  - exists x0. reflexivity.
  - cbn [app layout_groups].
    destruct (IH (last_x (group_start self x0)
                         (fst (layout_group self h order g x0))))
      as (x1 & ->).
    exists x1. reflexivity.
Qed.

Lemma block_items_group `{P : PandasSort} (self : CirclePlotter.t)
      (h : heap) (order : list string) g x0 :
  Forall (fun it => item_group it = fst g)
         (block_items (layout_group self h order g x0)).
Proof.
  unfold block_items, layout_group. cbn [fst snd].
  apply Forall_app. split.
  - apply Forall_map.
    eapply Forall_impl; [| apply layout_rows_group].
    cbn. intros c [Hc _]. exact Hc.
  - constructor; [reflexivity | constructor].
Qed.

Lemma flatten_groups `{P : PandasSort} (self : CirclePlotter.t)
      (h : heap) (order : list string) gs :
  forall x0,
    Forall (fun it => In (item_group it) (map fst gs))
           (flatten (layout_groups self h order gs x0)).
Proof.
  induction gs as [| g gs IH]; intros x0; [constructor |].
  cbn [layout_groups]. change (flatten (?b :: ?bs))
    with (block_items b ++ flatten bs).
  apply Forall_app. split.
  - eapply Forall_impl; [| apply block_items_group].
    cbn. intros it ->. now left.
  - eapply Forall_impl; [| apply IH]. cbn. intros it Hin. now right.
Qed.

(** The block of a group is its run in the output. *)
Lemma layout_groups_run `{P : PandasSort} (self : CirclePlotter.t)
      (h : heap) (order : list string) gs1 g gs2 x0 :
  NoDup (map fst (gs1 ++ g :: gs2)) ->
  exists x1,
    group_run (flatten (layout_groups self h order (gs1 ++ g :: gs2) x0))
              (fst g)
              (fst (layout_group self h order g x1))
              (snd (layout_group self h order g x1)).
Proof.
  intros Hnd. rewrite map_app in Hnd. cbn [map] in Hnd.
  apply NoDup_remove_2 in Hnd.
  assert (Hother : forall gs x,
             ~ In (fst g) (map fst gs) ->
             Forall (fun it => item_group it <> fst g)
                    (flatten (layout_groups self h order gs x))).
  { intros gs x Hnot. eapply Forall_impl; [| apply flatten_groups].
    cbn. intros it Hin Heq. apply Hnot. now rewrite <- Heq. }
  destruct (layout_groups_app self h order gs1 (g :: gs2) x0) as (x1 & Happ).
  exists x1. rewrite Happ, flatten_app. cbn [layout_groups].
  change (flatten (?b :: ?bs)) with (block_items b ++ flatten bs).
  unfold block_items at 1. rewrite <- app_assoc. cbn [app].
  eexists _, _. split; [reflexivity |].
  pose proof (block_items_group self h order g x1) as Hb.
  unfold block_items in Hb. apply Forall_app in Hb. destruct Hb as [Hcs Hlab].
  split; [| split; [| split]].
  - rewrite Forall_map in Hcs. exact Hcs.
  - now inversion Hlab.
  - apply Hother. intros Hin. apply Hnd, in_or_app. now left.
  - apply Hother. intros Hin. apply Hnd, in_or_app. now right.
Qed.

(** A run is determined by the output and the group. *)
Lemma prefix_unique {A} (Q : A -> Prop) (pre pre' l l' : list A) :
  Forall (fun a => ~ Q a) pre -> Forall (fun a => ~ Q a) pre' ->
  match l with a :: _ => Q a | [] => False end ->
  match l' with a :: _ => Q a | [] => False end ->
  pre ++ l = pre' ++ l' -> pre = pre' /\ l = l'.
Proof.
  revert pre'. induction pre as [| a pre IH]; intros pre' Hp Hp' Hl Hl' Heq.
  - destruct pre' as [| a' pre']; [split; [reflexivity | exact Heq] |].
    exfalso. cbn in Heq. subst l. inversion Hp'; subst. contradiction.
  - destruct pre' as [| a' pre'].
    + exfalso. cbn in Heq. subst l'. inversion Hp; subst. contradiction.
    + cbn in Heq. injection Heq as -> Heq.
      inversion Hp; inversion Hp'; subst.
      destruct (IH pre') as [-> ->]; auto.
Qed.

Lemma circles_then_label_inj cs cs' lab lab' post post' :
  map Circle cs ++ Label lab :: post = map Circle cs' ++ Label lab' :: post' ->
  cs = cs' /\ lab = lab' /\ post = post'.
Proof.
  revert cs'. induction cs as [| c cs IH]; intros [| c' cs'] Heq;
    cbn in Heq; try discriminate Heq.
  - injection Heq as -> ->. now repeat split.
  - injection Heq as -> Heq. destruct (IH _ Heq) as (-> & -> & ->).
    now repeat split.
Qed.

(** The items of a group split the output in one way only. *)
Lemma run_split_unique (k : cell) pre cs lab post pre' cs' lab' post' :
  pre ++ map Circle cs ++ Label lab :: post
  = pre' ++ map Circle cs' ++ Label lab' :: post' ->
  Forall (fun c => CircleAttributes.group c = k) cs ->
  GroupLabel.group_label lab = k ->
  Forall (fun it => item_group it <> k) pre ->
  Forall (fun c => CircleAttributes.group c = k) cs' ->
  GroupLabel.group_label lab' = k ->
  Forall (fun it => item_group it <> k) pre' ->
  pre = pre' /\ cs = cs' /\ lab = lab' /\ post = post'.
Proof.
  intros Heq Hcs Hlab Hpre Hcs' Hlab' Hpre'.
  apply (prefix_unique (fun it => item_group it = k)) in Heq;
    [| exact Hpre | exact Hpre' | |].
  - destruct Heq as [-> Heq]. split; [reflexivity |].
    exact (circles_then_label_inj _ _ _ _ _ _ Heq).
  - destruct cs as [| c cs0]; cbn; [exact Hlab | now inversion Hcs].
  - destruct cs' as [| c cs0]; cbn; [exact Hlab' | now inversion Hcs'].
Qed.

Lemma group_run_unique out k cs lab cs' lab' :
  group_run out k cs lab -> group_run out k cs' lab' ->
  cs = cs' /\ lab = lab'.
Proof.
  intros (pre & post & Hout & Hcs & Hlab & Hpre & Hpost)
         (pre' & post' & Hout' & Hcs' & Hlab' & Hpre' & Hpost').
  rewrite Hout in Hout'.
  destruct (run_split_unique k _ _ _ _ _ _ _ _ Hout'
              Hcs Hlab Hpre Hcs' Hlab' Hpre') as (_ & -> & -> & _).
  now split.
Qed.

(* ================================================================= *)
(** ** Runs of a valid call *)

Section ValidCall.
Context `{P : PandasSort} `{!PandasSortSpec P}.
Variables (self : CirclePlotter.t) (h : heap) (df : DataFrame).
Variables (group : string) (order : list string).
Hypothesis Hvalid : valid_call self h df group order.

Lemma emitted_layout :
  emitted self h df group order
  = flatten (layout_groups self h order (groupby df group false)
                           (CirclePlotter._x_init self)).
Proof.
  unfold emitted.
  now rewrite (emitted_ok self h df group order Hvalid).
Qed.

Lemma groupby_NoDup : NoDup (map fst (groupby df group false)).
Proof. rewrite groupby_keys. apply first_occurrences_NoDup. Qed.

(** Every group of the data has its run in the output. *)
Lemma emitted_run_of_group (g : cell * DataFrame) :
  In g (groupby df group false) ->
  exists x1,
    group_run (emitted self h df group order) (fst g)
              (fst (layout_group self h order g x1))
              (snd (layout_group self h order g x1)).
Proof.
  intros Hin. apply in_split in Hin. destruct Hin as (gs1 & gs2 & Hgs).
  rewrite emitted_layout, Hgs. apply layout_groups_run.
  rewrite <- Hgs. apply groupby_NoDup.
Qed.

(** Every run in the output is the block of a group of the data. *)
Lemma emitted_run_inv (k : cell) cs lab :
  group_run (emitted self h df group order) k cs lab ->
  exists g x1,
    In g (groupby df group false) /\ fst g = k
    /\ cs = fst (layout_group self h order g x1)
    /\ lab = snd (layout_group self h order g x1).
Proof.
  intros Hrun.
  assert (Hk : In k (map fst (groupby df group false))).
  { destruct Hrun as (pre & post & Hout & _ & Hlab & _).
    pose proof (flatten_groups self h order (groupby df group false)
                  (CirclePlotter._x_init self)) as Hall.
    rewrite <- emitted_layout, Hout in Hall.
    rewrite Forall_forall in Hall.
    specialize (Hall (Label lab)). cbn [item_group] in Hall.
    rewrite Hlab in Hall. apply Hall.
    apply in_or_app. right. apply in_or_app. right. now left. }
  apply in_map_iff in Hk. destruct Hk as (g & Hg & Hin).
  destruct (emitted_run_of_group g Hin) as (x1 & Hrun').
  rewrite Hg in Hrun'.
  destruct (group_run_unique _ _ _ _ _ _ Hrun Hrun') as [-> ->].
  exists g, x1. auto.
Qed.

Lemma group_of_key (k : cell) :
  In k (map (group_key df group) (rows df)) ->
  exists g, In g (groupby df group false) /\ fst g = k.
Proof.
  intros Hk.
  rewrite <- first_occurrences_In, <- (groupby_keys df group false) in Hk.
  apply in_map_iff in Hk. destruct Hk as (g & Hg & Hin). now exists g.
Qed.
End ValidCall.

(* ================================================================= *)
(** ** Sets of numbers: members, sum and maximum *)

Lemma existsb_Qc_eqb (v : Qc) (s : list Qc) :
  existsb (Qc_eqb v) s = true <-> In v s.
Proof.
  rewrite existsb_exists. split.
  - intros (w & Hin & Heq). apply Qc_eqb_eq in Heq. now subst.
  - intros Hin. exists v. split; [exact Hin | apply Qc_eqb_refl].
Qed.

Lemma set_add_In (v a : Qc) (s : list Qc) :
  In v (set_add a s) <-> v = a \/ In v s.
Proof.
  unfold set_add. destruct (existsb (Qc_eqb a) s) eqn:E.
  - apply existsb_Qc_eqb in E. split; [tauto |].
    intros [-> | Hin]; assumption.
  - rewrite in_app_iff. cbn. intuition congruence.
Qed.

Lemma set_add_NoDup (a : Qc) (s : list Qc) : NoDup s -> NoDup (set_add a s).
Proof.
  intros Hnd. unfold set_add. destruct (existsb (Qc_eqb a) s) eqn:E.
  - exact Hnd.
  - apply NoDup_app; [exact Hnd | repeat constructor; intros [] |].
    intros v Hin [<- | []].
    apply existsb_Qc_eqb in Hin. congruence.
Qed.

Lemma record_points_distinct (cs : list CircleAttributes.t) :
  forall ph,
    NoDup (CirclePointHistory.x ph) ->
    NoDup (CirclePointHistory.x (record_points ph cs))
    /\ forall v,
        In v (CirclePointHistory.x (record_points ph cs))
        <-> In v (CirclePointHistory.x ph)
            \/ In v (map CircleAttributes.x cs).
Proof.
  induction cs as [| c cs IH]; intros ph Hnd.
  - cbn. split; [exact Hnd | tauto].
  - cbn [record_points fold_left map In].
    destruct (IH (CirclePointHistory.add_point
                    ph (CircleAttributes.x c) (CircleAttributes.y c)))
      as [Hnd' Hin'].
    { cbn. now apply set_add_NoDup. }
    split; [exact Hnd' |].
    intros v. unfold record_points in Hin'. rewrite Hin'. cbn.
    rewrite set_add_In. intuition congruence.
Qed.

Lemma recorded_is_distinct (cs : list CircleAttributes.t) :
  is_distinct_of
    (CirclePointHistory.x (record_points CirclePointHistory.empty cs))
    (map CircleAttributes.x cs).
Proof.
  destruct (record_points_distinct cs CirclePointHistory.empty) as [Hnd Hin].
  { constructor. }
  split; [exact Hnd |]. intros v. rewrite Hin. cbn. tauto.
Qed.

Lemma fold_max_spec (s : list Qc) : forall m0,
  let m := fold_left (fun m w => if Qc_ltb m w then w else m) s m0 in
  (m = m0 \/ In m s) /\ m0 <= m /\ forall v, In v s -> v <= m.
Proof.
  induction s as [| w s IH]; intros m0; cbn [fold_left].
  - split; [now left | split; [apply Qcle_refl | intros v []]].
  - destruct (IH (if Qc_ltb m0 w then w else m0)) as (Hmem & Hge & Hall).
    set (m := fold_left _ s _) in *.
    assert (Hboth : m0 <= m /\ w <= m).
    { destruct (Qc_ltb m0 w) eqn:E.
      - apply Qc_ltb_lt in E. split; [| exact Hge].
        apply Qcle_trans with w; [now apply Qclt_le_weak | exact Hge].
      - apply Qc_ltb_ge in E. split; [exact Hge |].
        now apply Qcle_trans with m0. }
    destruct Hboth as [H0 Hw].
    split; [| split; [exact H0 |]].
    + destruct Hmem as [Hm | Hm]; [| right; now right].
      destruct (Qc_ltb m0 w); [right; left; now symmetry | now left].
    + intros v [<- | Hin]; [exact Hw | now apply Hall].
Qed.

Lemma max_or_is_max (d : Qc) (s : list Qc) :
  s <> [] -> is_max_of (max_or d s) s.
Proof.
  destruct s as [| v s]; [congruence | intros _].
  unfold max_or, py_max.
  destruct (fold_max_spec s v) as (Hmem & Hge & Hall).
  split.
  - destruct Hmem as [-> | Hin]; [now left | now right].
  - intros w [<- | Hin]; [exact Hge | now apply Hall].
Qed.

Lemma is_max_of_ext (m : Qc) (s l : list Qc) :
  (forall v, In v s <-> In v l) -> is_max_of m s -> is_max_of m l.
Proof.
  intros Hext [Hin Hall]. split; [now apply Hext |].
  intros v Hv. apply Hall. now apply Hext.
Qed.

(** The mean of the distinct members does not depend on their order. *)
Lemma fold_left_Qcplus_Permutation (l l' : list Qc) :
  Permutation l l' ->
  forall a, fold_left Qcplus l a = fold_left Qcplus l' a.
Proof.
  induction 1 as [| x l l' _ IH | x y l | l l' l'' _ IH1 _ IH2]; intros a.
  - reflexivity.
  - cbn. apply IH.
  - cbn. f_equal. ring.
  - now rewrite IH1.
Qed.

Lemma distinct_mean_unique (s s' l : list Qc) :
  is_distinct_of s l -> is_distinct_of s' l ->
  py_sum s / zq (py_len s) = py_sum s' / zq (py_len s').
Proof.
  intros [Hnd Hin] [Hnd' Hin'].
  assert (Hperm : Permutation s s').
  { apply NoDup_Permutation; [exact Hnd | exact Hnd' |].
    intros v. now rewrite Hin, Hin'. }
  unfold py_sum, py_len.
  now rewrite (fold_left_Qcplus_Permutation _ _ Hperm),
              (Permutation_length Hperm).
Qed.

(* ================================================================= *)
(** ** A sort that meets the contract of [sort_values] *)

Lemma cell_compare_antisym (a b : cell) :
  cell_compare a b = CompOpp (cell_compare b a).
Proof.
  destruct a as [p | s], b as [q | t]; cbn; try reflexivity.
  - unfold Qccompare. now rewrite <- Qcompare_antisym.
  - apply String.compare_antisym.
Qed.

Lemma lex_compare_antisym (k1 : list cell) : forall k2,
  lex_compare k1 k2 = CompOpp (lex_compare k2 k1).
Proof.
  induction k1 as [| a k1 IH]; intros [| b k2]; cbn; try reflexivity.
  rewrite (cell_compare_antisym a b).
  destruct (cell_compare b a); cbn; [apply IH | reflexivity | reflexivity].
Qed.

Lemma string_compare_refl (s : string) : String.compare s s = Eq.
Proof.
  pose proof (String.compare_antisym s s) as Hs.
  destruct (String.compare s s); [reflexivity | discriminate | discriminate].
Qed.

Lemma cell_compare_eq (a b : cell) : cell_compare a b = Eq <-> a = b.
Proof.
  destruct a as [p | s], b as [q | t]; cbn.
  - rewrite <- Qceq_alt. split; congruence.
  - split; discriminate.
  - split; discriminate.
  - split.
    + intros Hc. f_equal. now apply String.compare_eq_iff.
    + intros [= ->]. apply string_compare_refl.
Qed.

Lemma lex_compare_eq (k1 : list cell) : forall k2,
  lex_compare k1 k2 = Eq <-> k1 = k2.
Proof.
  induction k1 as [| a k1 IH]; intros [| b k2]; cbn;
    try (split; [discriminate | discriminate]); [tauto |].
  destruct (cell_compare a b) eqn:E.
  - apply cell_compare_eq in E. subst b. rewrite IH. split; congruence.
  - split; [discriminate |]. intros [= Hab _].
    apply cell_compare_eq in Hab. congruence.
  - split; [discriminate |]. intros [= Hab _].
    apply cell_compare_eq in Hab. congruence.
Qed.

Lemma same_key_eq (cols by_ : list string) (r1 r2 : Row) :
  same_key cols by_ r1 r2 = true
  <-> sort_key cols by_ r1 = sort_key cols by_ r2.
Proof.
  unfold same_key. rewrite <- lex_compare_eq.
  destruct (lex_compare _ _); split; congruence.
Qed.

Lemma key_geb_total (cols by_ : list string) (r1 r2 : Row) :
  key_geb cols by_ r1 r2 = false -> key_geb cols by_ r2 r1 = true.
Proof.
  unfold key_geb. rewrite (lex_compare_antisym (sort_key cols by_ r2)).
  destruct (lex_compare (sort_key cols by_ r1) (sort_key cols by_ r2));
    cbn; congruence.
Qed.

Lemma in_order_total (ascending : bool) (cols by_ : list string)
      (r1 r2 : Row) :
  in_order ascending cols by_ r1 r2 = false ->
  in_order ascending cols by_ r2 r1 = true.
Proof.
  destruct ascending; cbn [in_order]; [| apply key_geb_total].
  unfold key_leb. rewrite (lex_compare_antisym (sort_key cols by_ r2)).
  destruct (lex_compare (sort_key cols by_ r1) (sort_key cols by_ r2));
    cbn; congruence.
Qed.

(** Rows with the same keys are in order, either way round. *)
Lemma in_order_same_key (ascending : bool) (cols by_ : list string)
      (r1 r2 : Row) :
  sort_key cols by_ r1 = sort_key cols by_ r2 ->
  in_order ascending cols by_ r1 r2 = true.
Proof.
  intros Heq. apply lex_compare_eq in Heq.
  destruct ascending; cbn [in_order]; unfold key_leb, key_geb;
    now rewrite Heq.
Qed.

Section InsertionSort.
Variable ascending : bool.
Variables cols by_ : list string.
Let ord := in_order ascending cols by_.

Lemma insert_row_Permutation (r : Row) (l : list Row) :
  Permutation (insert_row ascending cols by_ r l) (r :: l).
Proof.
  induction l as [| r' l IH]; cbn; [reflexivity |].
  destruct (in_order ascending cols by_ r r'); [reflexivity |].
  rewrite IH. apply perm_swap.
Qed.

Lemma insert_row_Sorted (r : Row) (l : list Row) :
  Sorted (fun r1 r2 => ord r1 r2 = true) l ->
  Sorted (fun r1 r2 => ord r1 r2 = true)
         (insert_row ascending cols by_ r l).
Proof.
  induction 1 as [| r' l Hs IH Hhd]; cbn.
  - repeat constructor.
  - destruct (in_order ascending cols by_ r r') eqn:E.
    + constructor; [now constructor | now constructor].
    + constructor; [exact IH |].
      destruct l as [| r'' l]; cbn.
      * constructor. now apply in_order_total.
      * destruct (in_order ascending cols by_ r r'');
          constructor; [now apply in_order_total | now inversion Hhd].
Qed.

(** The row put in goes before the rows with its keys: it passes only
    rows that it is not in order with. *)
Lemma insert_row_stable (r0 r : Row) (l : list Row) :
  filter (same_key cols by_ r0) (insert_row ascending cols by_ r l)
  = filter (same_key cols by_ r0) (r :: l).
Proof.
  induction l as [| r' l IH]; [reflexivity |].
  cbn [insert_row].
  destruct (in_order ascending cols by_ r r') eqn:E; [reflexivity |].
  cbn [filter] in *. rewrite IH.
  destruct (same_key cols by_ r0 r) eqn:Er; [| reflexivity].
  destruct (same_key cols by_ r0 r') eqn:Er'; [| reflexivity].
  apply same_key_eq in Er, Er'.
  rewrite (in_order_same_key ascending cols by_ r r') in E
    by congruence.
  discriminate E.
Qed.

Lemma stable_sort_rows_Permutation (l : list Row) :
  Permutation (stable_sort_rows ascending cols by_ l) l.
Proof.
  induction l as [| r l IH]; cbn; [reflexivity |].
  rewrite insert_row_Permutation. now constructor.
Qed.

Lemma stable_sort_rows_Sorted (l : list Row) :
  Sorted (fun r1 r2 => ord r1 r2 = true)
         (stable_sort_rows ascending cols by_ l).
Proof.
  induction l as [| r l IH]; cbn; [constructor |].
  now apply insert_row_Sorted.
Qed.

Lemma stable_sort_rows_stable (r0 : Row) (l : list Row) :
  filter (same_key cols by_ r0) (stable_sort_rows ascending cols by_ l)
  = filter (same_key cols by_ r0) l.
Proof.
  induction l as [| r l IH]; [reflexivity |].
  cbn [stable_sort_rows fold_right].
  fold (stable_sort_rows ascending cols by_ l).
  rewrite insert_row_stable. cbn [filter]. now rewrite IH.
Qed.
End InsertionSort.

Lemma stable_sort_spec : PandasSortSpec stable_sort.
Proof.
  constructor; intros df by_ ascending; cbn.
  - reflexivity.
  - apply stable_sort_rows_Permutation.
  - intros _. apply stable_sort_rows_Sorted.
  - intros r _ _. apply stable_sort_rows_stable.
Qed.

(* ================================================================= *)
(** ** Properties of the generated sequence *)

(** The code's [sum(s) / len(s)] is the arithmetic mean. *)
Lemma py_mean_arithmetic (s : list Qc) :
  py_sum s / zq (py_len s) = arithmetic_mean s.
Proof.
  unfold py_sum, py_len, arithmetic_mean. f_equal.
  apply fold_symmetric; intros; ring.
Qed.

Section Claims.
Context `{P : PandasSort} `{!PandasSortSpec P}.
Variables (self : CirclePlotter.t) (h : heap) (df : DataFrame).
Variables (group : string) (order : list string).

(** The run of a group of the data, as the layout gives it. *)
Lemma run_of_key (k : cell) :
  valid_call self h df group order ->
  In k (map (group_key df group) (rows df)) ->
  exists g x1,
    In g (groupby df group false)
    /\ fst g = k
    /\ group_run (emitted self h df group order) k
                 (fst (layout_group self h order g x1))
                 (snd (layout_group self h order g x1))
    /\ List.length (fst (layout_group self h order g x1))
       = List.length (group_rows df group k)
    /\ fst (layout_group self h order g x1) <> [].
Proof.
  intros Hvalid Hk.
  destruct (group_of_key df group k Hk) as (g & Hin & Hg).
  destruct (emitted_run_of_group self h df group order Hvalid g Hin)
    as (x1 & Hrun).
  destruct (groupby_In df group false g Hin) as (Hkey & _ & Hrows).
  assert (Hlen : List.length (fst (layout_group self h order g x1))
                 = List.length (group_rows df group k)).
  { unfold layout_group. cbn [fst].
    rewrite layout_rows_length, <- Hg, <- Hrows.
    apply Permutation_length, sort_values_Permutation. }
  exists g, x1. rewrite Hg in Hrun.
  split; [exact Hin |]. split; [exact Hg |]. split; [exact Hrun |].
  split; [exact Hlen |].
  intros Hnil. rewrite Hnil in Hlen. symmetry in Hlen.
  apply length_zero_iff_nil in Hlen.
  apply (group_rows_not_nil df group k); [| exact Hlen].
  now rewrite <- Hg.
Qed.

(** C4.  Over the whole sequence the x of the circles never decreases.
    From one circle to the next it is unchanged while the column goes on
    (same group, y one step of 3 * radius higher), and it grows when a
    column is opened, of the same group or of the next one (y back at
    y_init).  Inside the run of a group the column is opened exactly at
    the indices that are multiples of [circles_per_column]. *)
Theorem x_non_decreasing :
  valid_call self h df group order ->
  0 < CirclePlotter._radius self ->
  StronglySorted (fun c1 c2 => CircleAttributes.x c1 <= CircleAttributes.x c2)
                 (circles (emitted self h df group order))
  /\ Sorted (fun c1 c2 => same_column self c1 c2 \/ next_column self c1 c2)
            (circles (emitted self h df group order))
  /\ forall k cs lab,
      group_run (emitted self h df group order) k cs lab ->
      forall j c c',
        nth_error cs j = Some c ->
        nth_error cs (S j) = Some c' ->
        if Z.eqb (Z.of_nat (S j)
                  mod CirclePlotter.circles_per_column self) 0
        then CircleAttributes.x c < CircleAttributes.x c'
        else CircleAttributes.x c' = CircleAttributes.x c.
Proof.
  intros Hvalid Hr. split; [| split].
  - rewrite (emitted_layout self h df group order Hvalid), circles_flatten.
    destruct (layout_groups_follows self h order Hr (groupby df group false)
                (CirclePlotter._x_init self)) as [Hs _].
    apply Sorted_StronglySorted.
    + intros a b c Hab Hbc. exact (Qcle_trans _ _ _ Hab Hbc).
    + revert Hs. apply Sorted_weaken.
      intros c1 c2 [(_ & Hx & _) | (Hx & _)].
      * rewrite Hx. apply Qcle_refl.
      * now apply Qclt_le_weak.
  - rewrite (emitted_layout self h df group order Hvalid), circles_flatten.
    apply (layout_groups_follows self h order Hr).
  - intros k cs lab Hrun j c c' Hc Hc'.
    destruct (emitted_run_inv self h df group order Hvalid k cs lab Hrun)
      as (g & x1 & _ & _ & Hcs & _).
    rewrite Hcs in *. unfold layout_group in *. cbn [fst] in *.
    pose proof (layout_rows_adjacent self _ _ _ 0%Z _ _ _ _ _
                  (Z.le_refl 0) Hc Hc') as Hadj.
    rewrite Z.add_0_l in Hadj.
    destruct (Z.eqb (Z.of_nat (S j)
                     mod CirclePlotter.circles_per_column self) 0).
    + destruct Hadj as [-> _].
      apply Qc_lt_add_pos. now apply circle_pad_pos.
    + exact (proj1 Hadj).
Qed.



End Claims.

(* ================================================================= *)
(** ** Where a group starts *)

Lemma last_x_not_nil (a b : Qc) (cs : list CircleAttributes.t) :
  cs <> [] -> last_x a cs = last_x b cs.
Proof.
  destruct cs as [| c cs] using rev_ind; [congruence | intros _].
  now rewrite !last_x_snoc.
Qed.

Lemma last_x_app (a : Qc) (l1 l2 : list CircleAttributes.t) :
  last_x a (l1 ++ l2) = last_x (last_x a l1) l2.
Proof. unfold last_x. apply fold_left_app. Qed.

(** The position a group starts from is the x of the last circle before
    it, when every group before it has a circle. *)
Lemma layout_groups_app_x `{P : PandasSort} (self : CirclePlotter.t)
      (h : heap) (order : list string) gs1 gs2 :
  Forall (fun g => rows (sort_values (snd g) order false) <> []) gs1 ->
  forall x0,
    layout_groups self h order (gs1 ++ gs2) x0
    = layout_groups self h order gs1 x0
        ++ layout_groups self h order gs2
             (last_x x0 (circles (flatten
                                    (layout_groups self h order gs1 x0)))).
Proof.
  induction 1 as [| g gs1 Hg _ IH]; intros x0; [reflexivity |].
  cbn [app layout_groups]. rewrite IH. do 2 f_equal.
  rewrite !circles_flatten. cbn [map List.concat]. rewrite last_x_app.
  set (cs := fst (layout_group self h order g x0)).
  assert (Hcs : cs <> []).
  { subst cs. unfold layout_group. cbn [fst]. intros Hnil.
    apply (f_equal (@List.length _)) in Hnil.
    rewrite layout_rows_length in Hnil.
    now apply length_zero_iff_nil in Hnil. }
  now rewrite (last_x_not_nil (group_start self x0) x0 cs Hcs).
Qed.

(** The group margin comes before the first circle of every group: that
    circle is at [y_init], and its x is the x of the last circle before
    the group ([x_init] for the first group), moved by [group_pad] once
    when it is [x_init] and twice when it is further right. *)
Lemma group_margin_before_first_circle `{P : PandasSort}
      `{!PandasSortSpec P} (self : CirclePlotter.t) (h : heap)
      (df : DataFrame) (group : string) (order : list string)
      (k : cell) pre cs lab post :
  valid_call self h df group order ->
  emitted self h df group order = pre ++ map Circle cs ++ Label lab :: post ->
  Forall (fun c => CircleAttributes.group c = k) cs ->
  GroupLabel.group_label lab = k ->
  Forall (fun it => item_group it <> k) pre ->
  exists c cs',
    cs = c :: cs'
    /\ CircleAttributes.x c
       = group_start self (last_x (CirclePlotter._x_init self) (circles pre))
         + CirclePlotter.group_pad self
    /\ CircleAttributes.y c = CirclePlotter._y_init self.
Proof.
  intros Hvalid Hout Hcs Hlab Hpre.
  assert (Hk : In k (map fst (groupby df group false))).
  { pose proof (flatten_groups self h order (groupby df group false)
                  (CirclePlotter._x_init self)) as Hall.
    rewrite <- (emitted_layout self h df group order Hvalid), Hout in Hall.
    rewrite Forall_forall in Hall.
    specialize (Hall (Label lab)). cbn [item_group] in Hall.
    rewrite Hlab in Hall. apply Hall.
    apply in_or_app. right. apply in_or_app. right. now left. }
  apply in_map_iff in Hk. destruct Hk as (g & Hg & Hin).
  destruct (in_split _ _ Hin) as (gs1 & gs2 & Hgs).
  assert (Hne : Forall (fun g => rows (sort_values (snd g) order false) <> [])
                       (groupby df group false)).
  { apply Forall_forall. intros g' Hin' Hnil.
    destruct (groupby_In df group false g' Hin') as (Hkey & _ & Hrows).
    apply (group_rows_not_nil df group (fst g') Hkey). rewrite <- Hrows.
    pose proof (Permutation_length
                  (sort_values_Permutation (snd g') order false)) as Hlen.
    rewrite Hnil in Hlen. symmetry in Hlen.
    now apply length_zero_iff_nil in Hlen. }
  pose proof (groupby_NoDup df group) as Hnd.
  rewrite Hgs in Hne, Hnd. apply Forall_app in Hne. destruct Hne as [Hne1 Hne2].
  pose proof (Forall_inv Hne2) as Hg_ne. cbn beta in Hg_ne.
  rewrite map_app in Hnd. cbn [map] in Hnd. apply NoDup_remove_2 in Hnd.
  rewrite (emitted_layout self h df group order Hvalid), Hgs in Hout.
  rewrite (layout_groups_app_x self h order gs1 (g :: gs2) Hne1) in Hout.
  rewrite flatten_app in Hout. cbn [layout_groups] in Hout.
  set (pre0 := flatten (layout_groups self h order gs1
                                      (CirclePlotter._x_init self))) in *.
  set (b := layout_group self h order g
              (last_x (CirclePlotter._x_init self) (circles pre0))) in *.
  change (flatten (b :: ?bs)) with (block_items b ++ flatten bs) in Hout.
  unfold block_items in Hout. rewrite <- !app_assoc in Hout. cbn [app] in Hout.
  pose proof (block_items_group self h order g
                (last_x (CirclePlotter._x_init self) (circles pre0))) as Hb.
  fold b in Hb. unfold block_items in Hb. apply Forall_app in Hb.
  destruct Hb as [Hb_cs Hb_lab]. rewrite Forall_map in Hb_cs.
  pose proof (Forall_inv Hb_lab) as Hb_lab'. cbn [item_group] in Hb_lab'.
  rewrite <- Hg in Hcs, Hlab, Hpre.
  assert (Hpre0 : Forall (fun it => item_group it <> fst g) pre0).
  { eapply Forall_impl; [| apply flatten_groups].
    cbn. intros it Hit Heq. apply Hnd, in_or_app. left. now rewrite <- Heq. }
  destruct (run_split_unique (fst g) _ _ _ _ _ _ _ _ Hout
              Hb_cs Hb_lab' Hpre0 Hcs Hlab Hpre) as (Hp & Hc & _).
  subst pre cs. subst b. unfold layout_group. cbn [fst].
  destruct (rows (sort_values (snd g) order false)) as [| r rs]; [congruence |].
  cbn [layout_rows]. rewrite Zmod_0_l. cbn [Z.eqb].
  eexists _, _. split; [reflexivity |]. split; reflexivity.
Qed.

(* ================================================================= *)
(** ** Input validation *)

Lemma validate_invalid (input_data : pyval) (group : string)
      (order : list string) :
  invalid_input input_data group order ->
  exists e,
    is_type_or_value_error e = true
    /\ In e (validation_errors group order)
    /\ CirclePlotter._validate_input_data input_data group order = inl e.
Proof.
  unfold invalid_input, CirclePlotter._validate_input_data.
  destruct input_data as [| | | | | | | df |];
    try (intros _; eexists; split; [| split; [| reflexivity]];
         [reflexivity | now left]).
  intros Hbad. destruct (in_columns group df) eqn:Eg; cbn [negb].
  - destruct Hbad as [Hg | (c & Hin & Hc)]; [discriminate Hg |].
    destruct (forallb (fun value => in_columns value df) order) eqn:Eo.
    + rewrite forallb_forall in Eo. rewrite (Eo c Hin) in Hc. discriminate Hc.
    + eexists; split; [| split; [| reflexivity]];
        [reflexivity | right; right; now left].
  - eexists; split; [| split; [| reflexivity]];
      [reflexivity | right; now left].
Qed.

Lemma body_invalid `{P : PandasSort} (self : CirclePlotter.t)
      (input_data : pyval) (group : string) (order : list string) (h : heap) :
  invalid_input input_data group order ->
  exists e,
    is_type_or_value_error e = true
    /\ In e (validation_errors group order)
    /\ CirclePlotter.circle_generator_body self input_data group order h
       = ([], inl e).
Proof.
  intros Hbad.
  destruct (validate_invalid _ _ _ Hbad) as (e & He & Hmsg & Hval).
  exists e. split; [exact He |]. split; [exact Hmsg |].
  unfold CirclePlotter.circle_generator_body. now rewrite Hval.
Qed.

(** C8.  When the dataset is no data frame, or the group column or an
    order column is missing, the iteration ends with a type or value
    error, one of the three of the validation with its message, and not
    one circle or label has been yielded. *)
Theorem invalid_input_yields_nothing `{P : PandasSort}
        (self : CirclePlotter.t) (h : heap) (input_data : pyval)
        (group : string) (order : list string) :
  invalid_input input_data group order ->
  exists e,
    is_type_or_value_error e = true
    /\ In e (validation_errors group order)
    /\ consume h (CirclePlotter.circle_generator self input_data group order)
       = ([], Some e).
Proof.
  intros Hbad.
  destruct (body_invalid self input_data group order h Hbad)
    as (e & He & Hmsg & Hb).
  exists e. split; [exact He |]. split; [exact Hmsg |].
  unfold CirclePlotter.circle_generator, consume. now rewrite Hb.
Qed.

(** C10.  On such arguments the call itself returns a generator that has
    not started; the error of the validation is what the first [next] on
    it raises. *)
Theorem validation_is_deferred `{P : PandasSort}
        (self : CirclePlotter.t) (h : heap) (input_data : pyval)
        (group : string) (order : list string) :
  invalid_input input_data group order ->
  exists body e,
    CirclePlotter.circle_generator self input_data group order
    = Gen_created body
    /\ is_type_or_value_error e = true
    /\ In e (validation_errors group order)
    /\ next h (CirclePlotter.circle_generator self input_data group order)
       = (Raised e, Gen_finished).
Proof.
  intros Hbad.
  destruct (body_invalid self input_data group order h Hbad)
    as (e & He & Hmsg & Hb).
  eexists _, e. split; [reflexivity |]. split; [exact He |].
  split; [exact Hmsg |].
  unfold CirclePlotter.circle_generator, next. now rewrite Hb.
Qed.

(* ================================================================= *)
(** ** The opacity check *)

Lemma alpha_setter_number (value : pyval) (v : Qc) :
  as_number value = Some v ->
  (0 <= v -> PlotAttributes.alpha_setter value = inr value)
  /\ (v < 0 ->
      PlotAttributes.alpha_setter value
      = inl (ValueError "Must specify an alpha value between 0 and 1")).
Proof.
  intros Hnum. unfold PlotAttributes.alpha_setter. rewrite Hnum. split.
  - intros Hge. apply Qc_ltb_ge in Hge. now rewrite Hge.
  - intros Hlt.
    assert (Hle : Qc_leb v 1 = true).
    { apply Qc_leb_le, Qclt_le_weak, Qclt_trans with 0; [exact Hlt |].
      reflexivity. }
    apply Qc_ltb_lt in Hlt. now rewrite Hlt, Hle.
Qed.

(** C1.  What the setter does at the bounds of the claim: it accepts the
    opacity 1, and it accepts the opacities 0 and 1.5 as well; only a
    negative opacity is refused. *)
Theorem alpha_setter_accepts_zero_and_above_one :
  PlotAttributes.alpha_setter (PyFloat (zq 1)) = inr (PyFloat (zq 1))
  /\ PlotAttributes.alpha_setter (PyFloat (zq 0)) = inr (PyFloat (zq 0))
  /\ PlotAttributes.alpha_setter (PyFloat (tenths 15))
     = inr (PyFloat (tenths 15))
  /\ PlotAttributes.alpha_setter (PyFloat (tenths (-5)))
     = inl (ValueError "Must specify an alpha value between 0 and 1").
Proof. repeat split. Qed.

(* ================================================================= *)
(** ** Assigning [plot_attributes] *)

Lemma dict_set_middle (done rest : dict) (k : cell) (v obj : pyval) :
  ~ In k (map fst done) ->
  dict_set (done ++ (k, v) :: rest) k obj = done ++ (k, obj) :: rest.
Proof.
  induction done as [| [k' v'] done IH]; intros Hnot; cbn.
  - now rewrite cell_eqb_refl.
  - cbn in Hnot. destruct (cell_eqb k k') eqn:E.
    + apply cell_eqb_eq in E. exfalso. apply Hnot. now left.
    + rewrite IH; [reflexivity |]. intros Hin. apply Hnot. now right.
Qed.

Lemma heap_set_same (h : heap) (l : ref) (d : dict) : heap_set h l d l = d.
Proof. unfold heap_set. now rewrite Nat.eqb_refl. Qed.

Lemma heap_set_other (h : heap) (l l0 : ref) (d : dict) :
  l0 <> l -> heap_set h l d l0 = h l0.
Proof.
  intros Hne. unfold heap_set.
  destruct (Nat.eqb_spec l0 l); [contradiction | reflexivity].
Qed.

Lemma PlotAttributes_init_inv `{M : Matplotlib}
      (color alpha label obj : pyval) :
  PlotAttributes.__init__ color alpha label = inr obj ->
  obj = PyPlotAttributes color alpha label.
Proof.
  unfold PlotAttributes.__init__, PlotAttributes.color_setter,
    PlotAttributes.alpha_setter.
  destruct (negb (is_color_like color)); cbn [rbind]; [discriminate |].
  destruct (as_number alpha) as [v |]; cbn [rbind]; [| discriminate].
  destruct (Qc_ltb v 0 && Qc_leb v 1); cbn [rbind]; [discriminate |].
  now intros [= <-].
Qed.

(** The loop of the setter, from any point on: [done] is what it has
    converted so far. *)
Lemma convert_items_ok `{M : Matplotlib} (l : ref) (items : dict) :
  forall (done : dict) (h h' : heap),
    h l = done ++ items ->
    NoDup (map fst (done ++ items)) ->
    CirclePlotter.convert_items h l items = (h', inr tt) ->
    exists items',
      h' l = done ++ items'
      /\ Forall2 converted_entry items items'
      /\ forall l0, l0 <> l -> h' l0 = h l0.
Proof.
  induction items as [| [k v] items IH]; intros done h h' Hl Hnd Hrun.
  - cbn in Hrun. injection Hrun as <-. exists []. rewrite Hl.
    split; [reflexivity | split; [constructor | reflexivity]].
  - cbn [CirclePlotter.convert_items] in Hrun.
    destruct (as_sequence v) as [elems |] eqn:Eseq; [| discriminate Hrun].
    destruct elems as [| color [| alpha [| label [| ? ?]]]];
      try discriminate Hrun.
    destruct (PlotAttributes.__init__ color alpha label) as [e | obj] eqn:Einit;
      [discriminate Hrun |].
    apply PlotAttributes_init_inv in Einit. subst obj.
    assert (Hk : ~ In k (map fst done)).
    { rewrite map_app in Hnd. cbn [map fst] in Hnd.
      apply NoDup_remove_2 in Hnd. intros Hin. apply Hnd, in_or_app. now left. }
    rewrite Hl, (dict_set_middle done items k v _ Hk) in Hrun.
    destruct (IH (done ++ [(k, PyPlotAttributes color alpha label)])
                 (heap_set h l
                    (done ++ (k, PyPlotAttributes color alpha label) :: items))
                 h') as (items' & Hl' & Hconv & Hframe).
    + rewrite heap_set_same, <- app_assoc. reflexivity.
    + rewrite <- app_assoc. cbn [app].
      rewrite map_app in *. exact Hnd.
    + exact Hrun.
    + exists ((k, PyPlotAttributes color alpha label) :: items').
      rewrite Hl', <- app_assoc. split; [reflexivity |]. split.
      * constructor; [| exact Hconv].
        split; [reflexivity |]. exists color, alpha, label. now split.
      * intros l0 Hne. rewrite (Hframe l0 Hne). now apply heap_set_other.
Qed.

Lemma setter_ok `{M : Matplotlib} (h h' : heap) (l kept : ref) :
  NoDup (map fst (h l)) ->
  CirclePlotter.plot_attributes_setter h (PyDict l) = (h', inr kept) ->
  assigned_in_place h l h' kept.
Proof.
  intros Hnd Hrun. unfold CirclePlotter.plot_attributes_setter in Hrun.
  destruct (CirclePlotter.convert_items h l (h l)) as [h1 [e | []]] eqn:Eloop;
    cbn [rbind] in Hrun; [discriminate Hrun |].
  injection Hrun as <- <-.
  destruct (convert_items_ok l (h l) [] h h1 eq_refl Hnd Eloop)
    as (items' & Hl' & Hconv & Hframe).
  cbn [app] in Hl'. rewrite <- Hl' in Hconv.
  split; [reflexivity |]. split; [exact Hconv |]. split; [exact Hframe |].
  intros Hne. unfold CirclePlotter.plot_attributes_setter.
  destruct Hconv as [| [k v] [k' v'] d d' (_ & c & a & lb & _ & Hv') _];
    [congruence |].
  cbn [snd] in Hv'. subst v'.
  cbn [CirclePlotter.convert_items as_sequence rbind].
  eexists. reflexivity.
Qed.

(** When the loop raises, the entries before the offending one stay
    converted in the caller's dict, and the rest is as it was. *)
Lemma convert_items_raises `{M : Matplotlib} (l : ref) (items : dict) :
  forall (done : dict) (h h' : heap) (e : exn),
    h l = done ++ items ->
    NoDup (map fst (done ++ items)) ->
    CirclePlotter.convert_items h l items = (h', inl e) ->
    exists pre pre' rest,
      items = pre ++ rest
      /\ rest <> []
      /\ h' l = done ++ pre' ++ rest
      /\ Forall2 converted_entry pre pre'
      /\ forall l0, l0 <> l -> h' l0 = h l0.
Proof.
  induction items as [| [k v] items IH]; intros done h h' e Hl Hnd Hrun.
  - discriminate Hrun.
  - assert (Hstop : h' = h ->
                    exists pre pre' rest,
                      (k, v) :: items = pre ++ rest
                      /\ rest <> []
                      /\ h' l = done ++ pre' ++ rest
                      /\ Forall2 converted_entry pre pre'
                      /\ forall l0, l0 <> l -> h' l0 = h l0).
    { intros ->. exists [], [], ((k, v) :: items).
      repeat split; [discriminate | exact Hl | constructor]. }
    cbn [CirclePlotter.convert_items] in Hrun.
    destruct (as_sequence v) as [elems |] eqn:Eseq;
      [| injection Hrun as <- _; now apply Hstop].
    destruct elems as [| color [| alpha [| label [| ? ?]]]];
      try (injection Hrun as <- _; now apply Hstop).
    destruct (PlotAttributes.__init__ color alpha label)
      as [e0 | obj] eqn:Einit;
      [injection Hrun as <- _; now apply Hstop |].
    clear Hstop. apply PlotAttributes_init_inv in Einit. subst obj.
    assert (Hk : ~ In k (map fst done)).
    { rewrite map_app in Hnd. cbn [map fst] in Hnd.
      apply NoDup_remove_2 in Hnd. intros Hin. apply Hnd, in_or_app. now left. }
    rewrite Hl, (dict_set_middle done items k v _ Hk) in Hrun.
    destruct (IH (done ++ [(k, PyPlotAttributes color alpha label)])
                 (heap_set h l
                    (done ++ (k, PyPlotAttributes color alpha label) :: items))
                 h' e)
      as (pre & pre' & rest & Hitems & Hrest & Hl' & Hconv & Hframe).
    + rewrite heap_set_same, <- app_assoc. reflexivity.
    + rewrite <- app_assoc. cbn [app]. rewrite map_app in *. exact Hnd.
    + exact Hrun.
    + exists ((k, v) :: pre),
             ((k, PyPlotAttributes color alpha label) :: pre'), rest.
      split; [cbn; now rewrite Hitems |]. split; [exact Hrest |].
      split; [rewrite Hl', <- app_assoc; reflexivity |]. split.
      * constructor; [| exact Hconv].
        split; [reflexivity |]. exists color, alpha, label. now split.
      * intros l0 Hne. rewrite (Hframe l0 Hne). now apply heap_set_other.
Qed.

Lemma setter_raises `{M : Matplotlib} (h h' : heap) (l : ref) (e : exn) :
  NoDup (map fst (h l)) ->
  CirclePlotter.plot_attributes_setter h (PyDict l) = (h', inl e) ->
  exists pre pre' rest,
    h l = pre ++ rest
    /\ rest <> []
    /\ h' l = pre' ++ rest
    /\ Forall2 converted_entry pre pre'
    /\ forall l0, l0 <> l -> h' l0 = h l0.
Proof.
  intros Hnd Hrun. unfold CirclePlotter.plot_attributes_setter in Hrun.
  destruct (CirclePlotter.convert_items h l (h l)) as [h1 [e1 | []]] eqn:Eloop;
    cbn [rbind] in Hrun; [| discriminate Hrun].
  injection Hrun as <- <-.
  exact (convert_items_raises l (h l) [] h h1 e1 eq_refl Hnd Eloop).
Qed.

Lemma init_runs_setter `{M : Matplotlib} (h h' : heap) (value : pyval)
      (radius x_init y_init : Qc) (per_column : Z) (self : CirclePlotter.t) :
  CirclePlotter.__init__ h value radius x_init y_init per_column
  = (h', inr self) ->
  CirclePlotter.plot_attributes_setter h value
  = (h', inr (CirclePlotter._plot_attributes self)).
Proof.
  unfold CirclePlotter.__init__.
  destruct (CirclePlotter.radius_setter radius); cbn [rbind];
    [discriminate |].
  destruct (CirclePlotter.x_init_setter x_init); cbn [rbind];
    [discriminate |].
  destruct (CirclePlotter.y_init_setter y_init); cbn [rbind];
    [discriminate |].
  destruct (CirclePlotter.plot_attributes_setter h value) as [h1 [e | l1]];
    cbn [rbind]; [discriminate |].
  now intros [= <- <-].
Qed.


(* ================================================================= *)
(** ** The worked example of the defaults *)



(* ================================================================= *)
(** ** The examples *)

Lemma example_styled (self : CirclePlotter.t) (df : DataFrame) :
  CirclePlotter._plot_attributes self = O ->
  Forall (fun r => group_key df "party" r = CStr "A"
                   \/ group_key df "party" r = CStr "B") (rows df) ->
  forall r,
    In r (rows df) -> styled self example_heap' (group_key df "party" r).
Proof.
  intros Hl Hall r Hin. rewrite Forall_forall in Hall.
  unfold styled. rewrite Hl.
  destruct (Hall r Hin) as [-> | ->]; eexists _, _, _; reflexivity.
Qed.

Lemma example_valid :
  valid_call example_plotter example_heap' example_frame "party" ["votes"].
Proof.
  constructor; try reflexivity; [discriminate |].
  apply example_styled; [reflexivity |].
  repeat constructor; (now left) || (now right).
Qed.


Lemma example_radius : 0 < CirclePlotter._radius example_plotter.
Proof. reflexivity. Qed.

(** The run on the example frame.  Party A, sorted by votes, fills a
    column of two at x = 0.8 and opens a second one at 1.4; its label is
    at the mean 1.1 of the two x, its gridline at 1.4 + 0.8.  Party B
    starts two group margins to the right of the last circle of A. *)
Example example_run :
  map in_short (@emitted stable_sort example_plotter example_heap'
                         example_frame "party" ["votes"])
  = [(2%Z, 4 # 5, 1); (0%Z, 4 # 5, 8 # 5); (3%Z, 7 # 5, 1);
     ((-1)%Z, 11 # 10, 11 # 5);
     (1%Z, 3, 1); ((-1)%Z, 3, 19 # 5)]%Q.
Proof. vm_compute. reflexivity. Qed.

(** On the example frame: two columns for party A, one for party B. *)
Lemma x_non_decreasing_witness :
  PandasSortSpec stable_sort
  /\ valid_call example_plotter example_heap' example_frame "party" ["votes"]
  /\ 0 < CirclePlotter._radius example_plotter
  /\ StronglySorted
       (fun c1 c2 => CircleAttributes.x c1 <= CircleAttributes.x c2)
       (circles (@emitted stable_sort example_plotter example_heap'
                          example_frame "party" ["votes"]))
  /\ Sorted (fun c1 c2 => same_column example_plotter c1 c2
                          \/ next_column example_plotter c1 c2)
            (circles (@emitted stable_sort example_plotter example_heap'
                               example_frame "party" ["votes"]))
  /\ forall k cs lab,
      group_run (@emitted stable_sort example_plotter example_heap'
                          example_frame "party" ["votes"]) k cs lab ->
      forall j c c',
        nth_error cs j = Some c ->
        nth_error cs (S j) = Some c' ->
        if Z.eqb (Z.of_nat (S j)
                  mod CirclePlotter.circles_per_column example_plotter) 0
        then CircleAttributes.x c < CircleAttributes.x c'
        else CircleAttributes.x c' = CircleAttributes.x c.
Proof.
  split; [exact stable_sort_spec |]. split; [exact example_valid |].
  split; [exact example_radius |].
  exact (@x_non_decreasing stable_sort stable_sort_spec
           example_plotter example_heap' example_frame "party" ["votes"]
           example_valid example_radius).
Defined.





(** An order column the example frame does not have. *)
Lemma invalid_input_yields_nothing_witness :
  invalid_input (PyDataFrame example_frame) "party" ["votes"; "age"]
  /\ exists e,
      is_type_or_value_error e = true
      /\ In e (validation_errors "party" ["votes"; "age"])
      /\ consume example_heap'
                 (@CirclePlotter.circle_generator stable_sort
                    example_plotter (PyDataFrame example_frame)
                    "party" ["votes"; "age"])
         = ([], Some e).
Proof.
  assert (Hbad : invalid_input (PyDataFrame example_frame)
                               "party" ["votes"; "age"]).
  { right. exists "age". split; [right; now left | reflexivity]. }
  split; [exact Hbad |].
  exact (@invalid_input_yields_nothing stable_sort example_plotter
           example_heap' (PyDataFrame example_frame) "party"
           ["votes"; "age"] Hbad).
Defined.

(** A file name where the data frame is expected. *)
Lemma validation_is_deferred_witness :
  invalid_input (PyStr "results.csv") "party" ["votes"]
  /\ exists body e,
      @CirclePlotter.circle_generator stable_sort example_plotter
        (PyStr "results.csv") "party" ["votes"]
      = Gen_created body
      /\ is_type_or_value_error e = true
      /\ In e (validation_errors "party" ["votes"])
      /\ next example_heap'
              (@CirclePlotter.circle_generator stable_sort example_plotter
                 (PyStr "results.csv") "party" ["votes"])
         = (Raised e, Gen_finished).
Proof.
  split; [exact I |].
  exact (@validation_is_deferred stable_sort example_plotter example_heap'
           (PyStr "results.csv") "party" ["votes"] I).
Defined.

Lemma example_styles_NoDup : NoDup (map fst (example_heap O)).
Proof.
  repeat constructor; cbn; intuition discriminate.
Qed.


(** The constructor on the example: it succeeds, and the caller's dict
    then holds the [PlotAttributes] objects. *)
Lemma example_init :
  exists h',
    @CirclePlotter.__init__ example_colors example_heap (PyDict O)
      default_radius default_x_init default_y_init 2
    = (h', inr example_plotter)
    /\ h' O = example_heap' O.
Proof. eexists. split; reflexivity. Qed.

(* ================================================================= *)
(** * Further properties of the plotter *)
(* ================================================================= *)
(** ** Every way the generator can end *)

Lemma tbind_inl {A B} (m : trace A) (f : A -> trace B) out e :
  tbind m f = (out, inl e) ->
  m = (out, inl e)
  \/ exists out1 a out2,
      m = (out1, inr a) /\ f a = (out2, inl e) /\ out = out1 ++ out2.
Proof.
  unfold tbind. destruct m as [out1 [e1 | a]].
  - intros [= <- <-]. now left.
  - destruct (f a) as [out2 r] eqn:Ef. intros [= <- ->].
    right. now exists out1, a, out2.
Qed.

Lemma group_label_raises (self : CirclePlotter.t) (h : heap) (group : cell)
      (data : DataFrame) (ph : CirclePointHistory.t) (e : exn) :
  CirclePointHistory.x ph <> [] ->
  CirclePlotter.group_label self h group data ph = inl e ->
  (e = KeyError group
   /\ dict_get (h (CirclePlotter._plot_attributes self)) group = None)
  \/ (e = AttributeError "label"
      /\ exists v,
          dict_get (h (CirclePlotter._plot_attributes self)) group = Some v
          /\ forall c a l, v <> PyPlotAttributes c a l).
Proof.
  intros Hph. unfold CirclePlotter.group_label.
  destruct (dict_get (h (CirclePlotter._plot_attributes self)) group)
    as [v |] eqn:Eget; cbn [rbind].
  - destruct (PlotAttributes.label v) as [e1 | sub] eqn:Elab; cbn [rbind].
    + intros [= <-]. right.
      destruct v; cbn in Elab; try discriminate Elab;
        injection Elab as <-;
        (split; [reflexivity | eexists; split; [reflexivity | discriminate]]).
    + rewrite (py_div_len _ _ Hph). cbn [rbind].
      rewrite (py_max_max_or 0 _ Hph). discriminate.
  - intros [= <-]. left. now split.
Qed.

Lemma style_error_of_group (self : CirclePlotter.t) (h : heap)
      (group : cell) (e : exn) :
  (e = KeyError group
   /\ dict_get (h (CirclePlotter._plot_attributes self)) group = None)
  \/ (e = AttributeError "label"
      /\ exists v,
          dict_get (h (CirclePlotter._plot_attributes self)) group = Some v
          /\ forall c a l, v <> PyPlotAttributes c a l) ->
  style_error self h e.
Proof.
  intros [[-> Hget] | [-> (v & Hget & Hv)]].
  - left. now exists group.
  - right. split; [reflexivity |]. now exists group, v.
Qed.

(** One pass of the inner loop with [circles_per_column] not zero and [y]
    bound after the first pass: it raises for the style only, and after
    it [y] is bound. *)
Lemma place_row_exit (self : CirclePlotter.t) (h : heap) (group : cell)
      (data : DataFrame) (i : Z) (row : Row) lv ph out r :
  CirclePlotter.circles_per_column self <> 0%Z ->
  (i <> 0%Z -> exists y0, CirclePlotter.y lv = Some y0) ->
  CirclePlotter.place_row self h group data (i, row) (lv, ph) = (out, r) ->
  match r with
  | inl e => style_error self h e
  | inr (lv', _) => exists y1, CirclePlotter.y lv' = Some y1
  end.
Proof.
  intros Hcpc Hy. unfold CirclePlotter.place_row.
  assert (Hpos : exists xy, CirclePlotter.next_position self i lv = inr xy).
  { destruct (Z.eq_dec i 0) as [-> | Hi].
    - eexists. apply (next_position_ok self 0%Z lv 0 Hcpc). congruence.
    - destruct (Hy Hi) as (y0 & Hy0). eexists.
      apply (next_position_ok self i lv y0 Hcpc). intros _. exact Hy0. }
  destruct Hpos as (xy & ->). cbn [lift tbind yield app].
  destruct (Z.eqb (i + 1) (shape0 data)).
  - destruct (CirclePlotter.group_label self h group data _)
      as [e | lab] eqn:Elab; cbn [lift tbind yield tret app].
    + intros [= <- <-]. apply (style_error_of_group self h group).
      apply (group_label_raises self h group data
               (CirclePointHistory.add_point ph (fst xy) (snd xy)) e);
        [cbn; apply set_add_not_nil | exact Elab].
    + intros [= <- <-]. cbn. eauto.
  - cbn [tret tbind app]. intros [= <- <-]. cbn. eauto.
Qed.

Lemma for_place_row_exit (self : CirclePlotter.t) (h : heap) (group : cell)
      (data : DataFrame) :
  CirclePlotter.circles_per_column self <> 0%Z ->
  forall rs i lv ph out e,
    (i <> 0%Z -> exists y0, CirclePlotter.y lv = Some y0) ->
    (0 <= i)%Z ->
    for_ (CirclePlotter.place_row self h group data)
         (enumerate_from i rs) (lv, ph) = (out, inl e) ->
    style_error self h e.
Proof.
  intros Hcpc. induction rs as [| row rs IH]; intros i lv ph out e Hy Hi Hrun.
  - discriminate Hrun.
  - cbn [enumerate_from for_] in Hrun.
    apply tbind_inl in Hrun.
    destruct Hrun as [Hrow | (out1 & [lv1 ph1] & out2 & Hrow & Hrest & _)].
    + exact (place_row_exit self h group data i row lv ph out (inl e)
               Hcpc Hy Hrow).
    + pose proof (place_row_exit self h group data i row lv ph out1
                    (inr (lv1, ph1)) Hcpc Hy Hrow) as Hy1.
      apply (IH (i + 1)%Z lv1 ph1 out2 e); [intros _; exact Hy1 | lia |].
      exact Hrest.
Qed.

Lemma place_group_exit `{P : PandasSort} (self : CirclePlotter.t)
      (h : heap) (order : list string) g lv out e :
  CirclePlotter.circles_per_column self <> 0%Z ->
  CirclePlotter.place_group self h order g lv = (out, inl e) ->
  style_error self h e.
Proof.
  intros Hcpc. destruct g as [k data]. unfold CirclePlotter.place_group.
  intros Hrun. apply tbind_inl in Hrun.
  destruct Hrun as [Hrows | (out1 & [lv1 ph1] & out2 & _ & Hret & _)].
  - eapply (for_place_row_exit self h k data Hcpc _ 0%Z);
      [congruence | lia | exact Hrows].
  - discriminate Hret.
Qed.

Lemma for_place_group_exit `{P : PandasSort} (self : CirclePlotter.t)
      (h : heap) (order : list string) :
  CirclePlotter.circles_per_column self <> 0%Z ->
  forall gs lv out e,
    for_ (CirclePlotter.place_group self h order) gs lv = (out, inl e) ->
    style_error self h e.
Proof.
  intros Hcpc. induction gs as [| g gs IH]; intros lv out e Hrun.
  - discriminate Hrun.
  - cbn [for_] in Hrun. apply tbind_inl in Hrun.
    destruct Hrun as [Hg | (out1 & lv1 & out2 & _ & Hrest & _)].
    + exact (place_group_exit self h order g lv out e Hcpc Hg).
    + exact (IH lv1 out2 e Hrest).
Qed.

(** With [circles_per_column] zero the first pass of the inner loop
    raises before its [yield]. *)
Lemma for_place_row_zero (self : CirclePlotter.t) (h : heap) (group : cell)
      (data : DataFrame) (rs : list Row) (i : Z) st :
  CirclePlotter.circles_per_column self = 0%Z ->
  for_ (CirclePlotter.place_row self h group data) (enumerate_from i rs) st
  = match rs with
    | [] => ([], inr st)
    | _ :: _ => ([], inl ZeroDivisionError)
    end.
Proof.
  intros Hcpc. destruct rs as [| row rs]; [reflexivity |].
  cbn [enumerate_from for_]. destruct st as [lv ph].
  unfold CirclePlotter.place_row, CirclePlotter.next_position, py_mod.
  rewrite Hcpc. reflexivity.
Qed.

Lemma for_place_group_zero `{P : PandasSort} (self : CirclePlotter.t)
      (h : heap) (order : list string) :
  CirclePlotter.circles_per_column self = 0%Z ->
  forall gs lv,
    for_ (CirclePlotter.place_group self h order) gs lv
    = ([], if forallb (fun g =>
                         match rows (sort_values (snd g) order false) with
                         | [] => true
                         | _ :: _ => false
                         end) gs
           then inr (CirclePlotter.Build_locals
                       (fold_left (fun x _ => group_start self x)
                                  gs (CirclePlotter.x lv))
                       (CirclePlotter.y lv))
           else inl ZeroDivisionError).
Proof.
  intros Hcpc. induction gs as [| g gs IH]; intros lv.
  - destruct lv. reflexivity.
  - cbn [for_ forallb fold_left]. destruct g as [k data].
    unfold CirclePlotter.place_group at 1, enumerate.
    rewrite (for_place_row_zero self h k data _ _ _ Hcpc). cbn [snd].
    destruct (rows (sort_values data order false)); cbn [tbind tret andb app].
    + rewrite IH. reflexivity.
    + reflexivity.
Qed.

Lemma validate_raises (input_data : pyval) (group : string)
      (order : list string) (e : exn) :
  CirclePlotter._validate_input_data input_data group order = inl e ->
  In e (validation_errors group order).
Proof.
  unfold CirclePlotter._validate_input_data, validation_errors.
  destruct input_data as [| | | | | | | df |];
    try (intros [= <-]; now left).
  destruct (negb (in_columns group df)).
  - intros [= <-]. right. now left.
  - destruct (forallb (fun value => in_columns value df) order);
      [discriminate |].
    intros [= <-]. right. right. now left.
Qed.

(** The ways a run of the body, as it is written here, can end in an
    exception. *)
Lemma generator_exits `{P : PandasSort} (self : CirclePlotter.t)
        (h : heap) (input_data : pyval) (group : string)
        (order : list string) (out : list item) (e : exn) :
  consume h (CirclePlotter.circle_generator self input_data group order)
  = (out, Some e) ->
  (In e (validation_errors group order) /\ out = [])
  \/ (e = ZeroDivisionError
      /\ CirclePlotter.circles_per_column self = 0%Z /\ out = [])
  \/ style_error self h e.
Proof.
  unfold CirclePlotter.circle_generator, consume,
    CirclePlotter.circle_generator_body.
  destruct (CirclePlotter._validate_input_data input_data group order)
    as [e0 | df] eqn:Eval; cbn [lift tbind app].
  - intros [= <- <-]. left. split; [| reflexivity].
    exact (validate_raises _ _ _ _ Eval).
  - destruct (for_ (CirclePlotter.place_group self h order)
                   (groupby df group false) _) as [out1 [e1 | lv1]] eqn:Erun;
      cbn [tbind tret app]; [| discriminate].
    intros [= <- <-]. right.
    destruct (Z.eq_dec (CirclePlotter.circles_per_column self) 0)
      as [Hzero | Hcpc].
    + left. rewrite (for_place_group_zero self h order Hzero) in Erun.
      destruct (forallb _ _); [discriminate Erun |].
      injection Erun as <- <-. now repeat split.
    + right. exact (for_place_group_exit self h order Hcpc _ _ _ _ Erun).
Qed.

(** X1.  The exceptions of the generator's own statements.  A division by
    zero comes only from [circles_per_column = 0], and then before
    anything is yielded: the mean over the set of x never divides by
    zero.  A key error names a group that has no entry in
    [plot_attributes]; an attribute error is for [label], on an entry
    that is no [PlotAttributes] object.  [y] is never read before it is
    bound, and [max] never gets an empty set. *)
Theorem generator_exceptions `{P : PandasSort} (self : CirclePlotter.t)
        (h : heap) (input_data : pyval) (group : string)
        (order : list string) (out : list item) (e : exn) :
  consume h (CirclePlotter.circle_generator self input_data group order)
  = (out, Some e) ->
  (e = ZeroDivisionError ->
   CirclePlotter.circles_per_column self = 0%Z /\ out = [])
  /\ (forall k,
         e = KeyError k ->
         dict_get (h (CirclePlotter._plot_attributes self)) k = None)
  /\ (forall name,
         e = AttributeError name ->
         name = "label"
         /\ exists k v,
             dict_get (h (CirclePlotter._plot_attributes self)) k = Some v
             /\ forall c a l, v <> PyPlotAttributes c a l)
  /\ (forall name, e <> UnboundLocalError name)
  /\ e <> ValueError "max() arg is an empty sequence".
Proof.
  intros Hrun.
  destruct (generator_exits self h input_data group order out e Hrun)
    as [[Hin _] | [(He & Hzero & Hout) | Hstyle]].
  - assert (Hkind : is_type_or_value_error e = true
                    /\ e <> ValueError "max() arg is an empty sequence").
    { destruct Hin as [<- | [<- | [<- | []]]];
        (split; [reflexivity | discriminate]). }
    destruct Hkind as [Hkind Hmax].
    split; [intros ->; discriminate Hkind |].
    split; [intros k ->; discriminate Hkind |].
    split; [intros name ->; discriminate Hkind |].
    split; [intros name ->; discriminate Hkind | exact Hmax].
  - subst e.
    split; [intros _; now split |].
    split; [intros k; discriminate |].
    split; [intros name; discriminate |].
    split; [intros name; discriminate | discriminate].
  - destruct Hstyle as [(k & -> & Hget) | (-> & k & v & Hget & Hv)].
    + split; [discriminate |].
      split; [intros k' [= <-]; exact Hget |].
      split; [intros name; discriminate |].
      split; [intros name; discriminate | discriminate].
    + split; [discriminate |].
      split; [intros k'; discriminate |].
      split; [intros name [= <-]; split; [reflexivity | now exists k, v] |].
      split; [intros name; discriminate | discriminate].
Qed.


(** X17.  Nothing comes out of a data frame without records: the
    iteration ends at once and without an exception, whatever the
    plotter, its styles and its [circles_per_column]. *)
Theorem empty_frame_yields_nothing `{P : PandasSort}
        (self : CirclePlotter.t) (h : heap)
        (df : DataFrame) (group : string) (order : list string) :
  in_columns group df = true ->
  forallb (fun c => in_columns c df) order = true ->
  rows df = [] ->
  consume h (CirclePlotter.circle_generator
               self (PyDataFrame df) group order)
  = ([], None).
Proof.
  intros Hg Ho Hrows.
  unfold CirclePlotter.circle_generator, consume,
    CirclePlotter.circle_generator_body.
  rewrite (validate_ok df group order Hg Ho). cbn [lift tbind app].
  unfold groupby. rewrite Hrows. reflexivity.
Qed.

(* ================================================================= *)
(** ** A group without a style *)






(* ================================================================= *)
(** ** What the items carry *)

(** X4.  Every circle of a group carries the number of records of the
    group as [count], and so does the label as [group_count]; the sublabel is
    the label stored in the style of the group; and [label_y] is
    [y_init + 3 * radius * circles_per_column], the same for all groups
    whatever their size. *)
Theorem run_fields `{P : PandasSort} `{!PandasSortSpec P}
        (self : CirclePlotter.t) (h : heap) (df : DataFrame)
        (group : string) (order : list string) :
  valid_call self h df group order ->
  forall k cs lab,
    group_run (emitted self h df group order) k cs lab ->
    Forall (fun c => CircleAttributes.count c
                     = Z.of_nat (List.length (group_rows df group k))) cs
    /\ GroupLabel.group_count lab
       = Z.of_nat (List.length (group_rows df group k))
    /\ (forall color alpha label,
           dict_get (h (CirclePlotter._plot_attributes self)) k
           = Some (PyPlotAttributes color alpha label) ->
           GroupLabel.group_sublabel lab = label)
    /\ GroupLabel.label_y lab
       = CirclePlotter._y_init self
         + zq 3 * CirclePlotter._radius self
           * zq (CirclePlotter.circles_per_column self).
Proof.
  intros Hvalid k cs lab Hrun.
  destruct (emitted_run_inv self h df group order Hvalid k cs lab Hrun)
    as (g & x1 & Hin & Hk & Hcs & Hlab).
  destruct (groupby_In df group false g Hin) as (_ & _ & Hrows).
  assert (Hn : shape0 (snd g)
               = Z.of_nat (List.length (group_rows df group k))).
  { unfold shape0. now rewrite Hrows, Hk. }
  rewrite Hcs, Hlab. unfold layout_group. cbn [fst snd].
  repeat split.
  - eapply Forall_impl; [| apply layout_rows_group].
    cbn. intros c [_ Hc]. now rewrite Hc.
  - exact Hn.
  - intros color alpha label Hget. cbn. unfold sublabel_of.
    now rewrite Hk, Hget.
Qed.

(* ================================================================= *)
(** ** Columns and rows of a group *)

Lemma zq_add (a b : Z) : zq (a + b) = zq a + zq b.
Proof.
  apply Qc_is_canon. unfold zq, Qcplus. cbn [this Q2Qc].
  rewrite !Qred_correct. rewrite inject_Z_plus. reflexivity.
Qed.

Lemma div_mod_succ (j c : Z) :
  (0 <= j)%Z -> (0 < c)%Z ->
  if Z.eqb ((j + 1) mod c) 0
  then ((j + 1) / c = j / c + 1)%Z
  else ((j + 1) / c = j / c)%Z /\ ((j + 1) mod c = j mod c + 1)%Z.
Proof.
  intros Hj Hc.
  pose proof (Z.div_mod j c ltac:(lia)) as Hdm.
  pose proof (Z.mod_pos_bound j c Hc) as Hm.
  destruct (Z.eq_dec (j mod c + 1) c) as [Hlast | Hmore].
  - assert (Hd : ((j + 1) / c = j / c + 1)%Z)
      by (symmetry; apply (Z.div_unique (j + 1) c (j / c + 1) 0); lia).
    assert (Hr : ((j + 1) mod c = 0)%Z)
      by (symmetry; apply (Z.mod_unique (j + 1) c (j / c + 1) 0); lia).
    rewrite Hr. exact Hd.
  - assert (Hd : ((j + 1) / c = j / c)%Z)
      by (symmetry;
          apply (Z.div_unique (j + 1) c (j / c) (j mod c + 1)); lia).
    assert (Hr : ((j + 1) mod c = j mod c + 1)%Z)
      by (symmetry;
          apply (Z.mod_unique (j + 1) c (j / c) (j mod c + 1)); lia).
    rewrite Hr. destruct (Z.eqb_spec (j mod c + 1) 0); [lia | now split].
Qed.

(** Circle [j] of a group is in column [j / circles_per_column], counted
    from the first circle, and in row [j mod circles_per_column], counted
    from [y_init]; columns and rows are [3 * radius] apart. *)
Lemma layout_rows_closed (self : CirclePlotter.t) (group : cell) (n : Z)
      (x y : Qc) (rs : list Row) :
  (0 < CirclePlotter.circles_per_column self)%Z ->
  forall j c0 c,
    nth_error (layout_rows self group n 0 x y rs) 0 = Some c0 ->
    nth_error (layout_rows self group n 0 x y rs) j = Some c ->
    CircleAttributes.x c
    = CircleAttributes.x c0
      + zq (Z.of_nat j / CirclePlotter.circles_per_column self)
        * CirclePlotter.circle_pad self
    /\ CircleAttributes.y c
       = CirclePlotter._y_init self
         + zq (Z.of_nat j mod CirclePlotter.circles_per_column self)
           * CirclePlotter.circle_pad self.
Proof.
  intros Hc. induction j as [| j IH]; intros c0 c H0 Hj.
  - rewrite H0 in Hj. injection Hj as <-. cbn [Z.of_nat].
    rewrite Zdiv_0_l, Zmod_0_l.
    pose proof (layout_rows_nth self group n rs 0%Z x y O c0 H0) as Hy.
    cbn [Z.of_nat] in Hy. rewrite Z.add_0_l, Zmod_0_l in Hy. cbn [Z.eqb] in Hy.
    rewrite Hy. change (zq 0) with 0. split; ring.
  - destruct (nth_error (layout_rows self group n 0 x y rs) j)
      as [cj |] eqn:Ej.
    + destruct (IH c0 cj H0 eq_refl) as [Hx Hy].
      pose proof (layout_rows_adjacent self group n rs 0%Z x y j cj c
                    (Z.le_refl 0) Ej Hj) as Hadj.
      rewrite Z.add_0_l in Hadj.
      pose proof (div_mod_succ (Z.of_nat j)
                    (CirclePlotter.circles_per_column self)
                    (Nat2Z.is_nonneg j) Hc) as Hdm.
      replace (Z.of_nat (S j)) with (Z.of_nat j + 1)%Z in * by lia.
      destruct (Z.eqb ((Z.of_nat j + 1)
                         mod CirclePlotter.circles_per_column self) 0)
        eqn:E.
      * destruct Hadj as [Hx' Hy']. rewrite Hx', Hy', Hx, Hdm, zq_add.
        apply Z.eqb_eq in E. rewrite E.
        change (zq 1) with 1. change (zq 0) with 0. split; ring.
      * destruct Hadj as [Hx' Hy']. destruct Hdm as [Hd Hm].
        rewrite Hx', Hy', Hx, Hy, Hd, Hm, zq_add.
        change (zq 1) with 1. split; ring.
    + exfalso. apply nth_error_None in Ej.
      assert (Hlt : (S j < List.length
                             (layout_rows self group n 0 x y rs))%nat)
        by (apply nth_error_Some; congruence).
      lia.
Qed.

Lemma nth_error_first {A} (l : list A) (j : nat) (a : A) :
  nth_error l j = Some a -> exists a0, nth_error l 0 = Some a0.
Proof.
  destruct l as [| a0 l]; [destruct j; discriminate |].
  intros _. now exists a0.
Qed.

(** Circle [j] of a run of the output, by its column and its row. *)
Lemma run_closed `{P : PandasSort} `{!PandasSortSpec P}
      (self : CirclePlotter.t) (h : heap) (df : DataFrame)
      (group : string) (order : list string) :
  valid_call self h df group order ->
  (0 < CirclePlotter.circles_per_column self)%Z ->
  forall k cs lab,
    group_run (emitted self h df group order) k cs lab ->
    forall j c0 c,
      nth_error cs 0 = Some c0 ->
      nth_error cs j = Some c ->
      CircleAttributes.x c
      = CircleAttributes.x c0
        + zq (Z.of_nat j / CirclePlotter.circles_per_column self)
          * CirclePlotter.circle_pad self
      /\ CircleAttributes.y c
         = CirclePlotter._y_init self
           + zq (Z.of_nat j mod CirclePlotter.circles_per_column self)
             * CirclePlotter.circle_pad self.
Proof.
  intros Hvalid Hc k cs lab Hrun j c0 c H0 Hj.
  destruct (emitted_run_inv self h df group order Hvalid k cs lab Hrun)
    as (g & x1 & _ & _ & Hcs & _).
  rewrite Hcs in *. unfold layout_group in *. cbn [fst] in *.
  exact (layout_rows_closed self _ _ _ _ _ Hc j c0 c H0 Hj).
Qed.

(** X5.  The circles are on a grid.  Two circles of the output, of the
    same group or not, that have the same row index
    [j mod circles_per_column] in their groups have the same y.  Two
    circles of one group have the same x when their column index
    [j / circles_per_column] is the same, and the one in the column
    further on is further right. *)
Theorem circles_on_a_grid `{P : PandasSort} `{!PandasSortSpec P}
        (self : CirclePlotter.t) (h : heap) (df : DataFrame)
        (group : string) (order : list string) :
  valid_call self h df group order ->
  0 < CirclePlotter._radius self ->
  (0 < CirclePlotter.circles_per_column self)%Z ->
  (forall k cs lab k' cs' lab' j j' c c',
      group_run (emitted self h df group order) k cs lab ->
      group_run (emitted self h df group order) k' cs' lab' ->
      nth_error cs j = Some c ->
      nth_error cs' j' = Some c' ->
      (Z.of_nat j mod CirclePlotter.circles_per_column self
       = Z.of_nat j' mod CirclePlotter.circles_per_column self)%Z ->
      CircleAttributes.y c = CircleAttributes.y c')
  /\ (forall k cs lab j j' c c',
         group_run (emitted self h df group order) k cs lab ->
         nth_error cs j = Some c ->
         nth_error cs j' = Some c' ->
         ((Z.of_nat j / CirclePlotter.circles_per_column self
           = Z.of_nat j' / CirclePlotter.circles_per_column self)%Z ->
          CircleAttributes.x c = CircleAttributes.x c')
         /\ ((Z.of_nat j / CirclePlotter.circles_per_column self
              < Z.of_nat j' / CirclePlotter.circles_per_column self)%Z ->
             CircleAttributes.x c < CircleAttributes.x c')).
Proof.
  intros Hvalid Hr Hc. split.
  - intros k cs lab k' cs' lab' j j' c c' Hrun Hrun' Hj Hj' Hmod.
    destruct (nth_error_first cs j c Hj) as (c0 & H0).
    destruct (nth_error_first cs' j' c' Hj') as (c0' & H0').
    destruct (run_closed self h df group order Hvalid Hc k cs lab Hrun
                j c0 c H0 Hj) as [_ Hy].
    destruct (run_closed self h df group order Hvalid Hc k' cs' lab' Hrun'
                j' c0' c' H0' Hj') as [_ Hy'].
    now rewrite Hy, Hy', Hmod.
  - intros k cs lab j j' c c' Hrun Hj Hj'.
    destruct (nth_error_first cs j c Hj) as (c0 & H0).
    destruct (run_closed self h df group order Hvalid Hc k cs lab Hrun
                j c0 c H0 Hj) as [Hx _].
    destruct (run_closed self h df group order Hvalid Hc k cs lab Hrun
                j' c0 c' H0 Hj') as [Hx' _].
    rewrite Hx, Hx'. split.
    + now intros ->.
    + intros Hlt.
      set (q := (Z.of_nat j / CirclePlotter.circles_per_column self)%Z) in *.
      set (q' := (Z.of_nat j' / CirclePlotter.circles_per_column self)%Z)
        in *.
      replace (zq q') with (zq q + zq (q' - q))
        by (rewrite <- zq_add; f_equal; lia).
      replace (CircleAttributes.x c0
               + (zq q + zq (q' - q)) * CirclePlotter.circle_pad self)
        with (CircleAttributes.x c0 + zq q * CirclePlotter.circle_pad self
              + zq (q' - q) * CirclePlotter.circle_pad self) by ring.
      apply Qc_lt_add_pos, Qc_mul_pos;
        [apply zq_pos; lia | now apply circle_pad_pos].
Qed.

(* ================================================================= *)
(** ** Between two groups *)

Lemma zq_2_2 : zq 2 + zq 2 = zq 4.
Proof. rewrite <- zq_add. reflexivity. Qed.

Lemma group_pad_4 (self : CirclePlotter.t) :
  CirclePlotter.group_pad self = zq 4 * CirclePlotter._radius self.
Proof.
  unfold CirclePlotter.group_pad, CirclePlotter.pad.
  rewrite <- zq_2_2. ring.
Qed.

Lemma follows_le (self : CirclePlotter.t) (cs : list CircleAttributes.t) :
  Sorted (follows self) cs ->
  StronglySorted
    (fun c1 c2 => CircleAttributes.x c1 <= CircleAttributes.x c2) cs.
Proof.
  intros Hs. apply Sorted_StronglySorted.
  - intros a b c Hab Hbc. exact (Qcle_trans _ _ _ Hab Hbc).
  - revert Hs. apply Sorted_weaken.
    intros c1 c2 [(_ & Hx & _) | (Hx & _)].
    + rewrite Hx. apply Qcle_refl.
    + now apply Qclt_le_weak.
Qed.

Lemma last_is_max (cs : list CircleAttributes.t) (c1 : CircleAttributes.t) :
  StronglySorted
    (fun c1 c2 => CircleAttributes.x c1 <= CircleAttributes.x c2)
    (cs ++ [c1]) ->
  forall c, In c (cs ++ [c1]) -> CircleAttributes.x c <= CircleAttributes.x c1.
Proof.
  induction cs as [| c0 cs IH]; intros Hs c Hin.
  - destruct Hin as [<- | []]. apply Qcle_refl.
  - cbn [app] in Hs. apply StronglySorted_inv in Hs. destruct Hs as [Hs Hall].
    destruct Hin as [<- | Hin]; [| now apply IH].
    rewrite Forall_forall in Hall. apply Hall, in_or_app. right. now left.
Qed.

(** The largest x recorded for circles that never go left is the x of the
    last one. *)
Lemma max_or_last (cs : list CircleAttributes.t) (c1 : CircleAttributes.t) :
  StronglySorted
    (fun c1 c2 => CircleAttributes.x c1 <= CircleAttributes.x c2)
    (cs ++ [c1]) ->
  max_or 0 (CirclePointHistory.x
              (record_points CirclePointHistory.empty (cs ++ [c1])))
  = CircleAttributes.x c1.
Proof.
  intros Hs.
  pose proof (recorded_is_distinct (cs ++ [c1])) as [_ Hext].
  assert (Hne : cs ++ [c1] <> []) by (destruct cs; discriminate).
  pose proof (max_or_is_max 0 _ (record_points_x_not_nil
                                   CirclePointHistory.empty _ Hne)) as Hmax.
  apply (is_max_of_ext _ _ _ Hext) in Hmax. destruct Hmax as [Hin Hall].
  apply Qcle_antisym.
  - apply in_map_iff in Hin. destruct Hin as (c & <- & Hc).
    now apply (last_is_max cs c1 Hs).
  - apply Hall, in_map, in_or_app. right. now left.
Qed.

(** Where a label sits in the items of a group followed by more. *)
Lemma split_at_label (cs : list CircleAttributes.t) (lab_b : GroupLabel.t)
      (rest : list item) :
  forall pre c1 lab tl,
    pre ++ Circle c1 :: Label lab :: tl
    = map Circle cs ++ Label lab_b :: rest ->
    (cs = circles pre ++ [c1] /\ lab = lab_b /\ tl = rest)
    \/ exists pre',
        pre = map Circle cs ++ Label lab_b :: pre'
        /\ rest = pre' ++ Circle c1 :: Label lab :: tl.
Proof.
  induction cs as [| c cs IH]; intros pre c1 lab tl Heq.
  - destruct pre as [| p pre]; [discriminate Heq |].
    cbn [map app] in Heq. injection Heq as -> Hrest.
    right. exists pre. split; [reflexivity | now symmetry].
  - destruct pre as [| p pre]; cbn [map app] in Heq.
    + injection Heq as -> Htl.
      destruct cs as [| c' cs]; [| discriminate Htl].
      cbn [map app] in Htl. injection Htl as -> ->.
      left. repeat split.
    + injection Heq as -> Htl.
      destruct (IH pre c1 lab tl Htl)
        as [(Hcs & Hlab & Htl') | (pre' & Hp & Hr)].
      * left. cbn [circles app]. now rewrite Hcs.
      * right. exists pre'. cbn [map app]. now rewrite Hp.
Qed.

(** The circles of a group end at or right of where the group starts. *)
Lemma last_x_ge (self : CirclePlotter.t) (group : cell) (n : Z)
      (rs : list Row) (x1 : Qc) :
  0 < CirclePlotter._radius self ->
  x1 <= last_x x1 (layout_rows self group n 0 x1 0 rs).
Proof.
  intros Hr.
  destruct (layout_group_follows self group n Hr rs x1 0) as [Hs Hhd].
  remember (layout_rows self group n 0 x1 0 rs) as cs eqn:E. clear E.
  destruct cs as [| c0 cs]; [apply Qcle_refl |].
  destruct (@exists_last _ (c0 :: cs)) as (cs' & c & Heq); [discriminate |].
  rewrite Heq, last_x_snoc. rewrite Heq in Hs. apply follows_le in Hs.
  apply Qcle_trans with (CircleAttributes.x c0);
    [now apply Qclt_le_weak |].
  apply (last_is_max _ _ Hs). rewrite <- Heq. now left.
Qed.

Lemma layout_groups_gridline `{P : PandasSort} (self : CirclePlotter.t)
      (h : heap) (order : list string) :
  0 < CirclePlotter._radius self ->
  forall gs x0 pre c1 lab c2 post,
    CirclePlotter._x_init self <= x0 ->
    flatten (layout_groups self h order gs x0)
    = pre ++ Circle c1 :: Label lab :: Circle c2 :: post ->
    GroupLabel.gridline_x lab
    = CircleAttributes.x c1 + CirclePlotter.group_pad self
    /\ CircleAttributes.x c2
       = GroupLabel.gridline_x lab + CirclePlotter.group_pad self.
Proof.
  intros Hr. induction gs as [| g gs IH]; intros x0 pre c1 lab c2 post Hx0 Heq.
  - destruct pre; discriminate Heq.
  - cbn [layout_groups] in Heq.
    change (flatten (?b :: ?bs)) with (block_items b ++ flatten bs) in Heq.
    unfold block_items in Heq. rewrite <- app_assoc in Heq. cbn [app] in Heq.
    unfold layout_group in Heq. cbn [fst snd] in Heq.
    pose proof (group_start_ge self x0 Hr) as Hge.
    pose proof (last_x_ge self (fst g) (shape0 (snd g))
                  (rows (sort_values (snd g) order false))
                  (group_start self x0) Hr) as Hlast.
    destruct (layout_group_follows self (fst g) (shape0 (snd g)) Hr
                (rows (sort_values (snd g) order false))
                (group_start self x0) 0) as [Hs Hhd].
    remember (layout_rows self (fst g) (shape0 (snd g)) 0
                          (group_start self x0) 0
                          (rows (sort_values (snd g) order false)))
      as cs eqn:Ecs.
    clear Ecs. symmetry in Heq.
    destruct (split_at_label _ _ _ _ _ _ _ Heq)
      as [(Hcs & Hlab & Htl) | (pre' & _ & Hrest)].
    + apply follows_le in Hs. rewrite Hcs in Hs, Hhd, Htl.
      assert (Hgrid : GroupLabel.gridline_x lab
                      = CircleAttributes.x c1 + CirclePlotter.group_pad self).
      { rewrite Hlab. cbn [label_for GroupLabel.gridline_x].
        rewrite Hcs. now rewrite (max_or_last _ _ Hs). }
      split; [exact Hgrid |]. rewrite Hgrid.
      rewrite last_x_snoc in Htl.
      assert (Hlt : CirclePlotter._x_init self < CircleAttributes.x c1).
      { apply Qcle_lt_trans with (group_start self x0);
          [exact (Qcle_trans _ _ _ Hx0 Hge) |].
        destruct (circles pre) as [| c0 cs0]; cbn [app] in Hhd, Hs.
        - exact (proj1 Hhd).
        - apply Qclt_le_trans with (CircleAttributes.x c0);
            [exact (proj1 Hhd) |].
          apply (last_is_max (c0 :: cs0) c1 Hs). now left. }
      destruct gs as [| g' gs]; [discriminate Htl |].
      cbn [layout_groups] in Htl.
      change (flatten (?b :: ?bs)) with (block_items b ++ flatten bs) in Htl.
      unfold block_items, layout_group in Htl. cbn [fst snd] in Htl.
      destruct (rows (sort_values (snd g') order false)) as [| r rs];
        [discriminate Htl |].
      cbn [layout_rows map app] in Htl. rewrite Zmod_0_l in Htl.
      cbn [Z.eqb] in Htl. injection Htl as -> _.
      cbn [CircleAttributes.x]. unfold group_start.
      apply Qc_ltb_lt in Hlt. now rewrite Hlt.
    + refine (IH _ pre' c1 lab c2 post _ Hrest).
      exact (Qcle_trans _ _ _ (Qcle_trans _ _ _ Hx0 Hge) Hlast).
Qed.

(** X6.  A label that has a circle on either side, the last circle of its
    group before it and the first circle of the next group after it, has
    its gridline midway between the two: [4 * radius] right of the one,
    [4 * radius] left of the other. *)
Theorem gridline_between_groups `{P : PandasSort} `{!PandasSortSpec P}
        (self : CirclePlotter.t) (h : heap) (df : DataFrame)
        (group : string) (order : list string) :
  valid_call self h df group order ->
  0 < CirclePlotter._radius self ->
  forall pre c1 lab c2 post,
    emitted self h df group order
    = pre ++ Circle c1 :: Label lab :: Circle c2 :: post ->
    GroupLabel.gridline_x lab
    = CircleAttributes.x c1 + zq 4 * CirclePlotter._radius self
    /\ CircleAttributes.x c2
       = GroupLabel.gridline_x lab + zq 4 * CirclePlotter._radius self.
Proof.
  intros Hvalid Hr pre c1 lab c2 post Hout.
  rewrite (emitted_layout self h df group order Hvalid) in Hout.
  rewrite <- group_pad_4.
  exact (layout_groups_gridline self h order Hr _ _ pre c1 lab c2 post
           (Qcle_refl _) Hout).
Qed.

(* ================================================================= *)
(** ** The label is over its group *)

Lemma zq_succ (n : nat) : zq (Z.of_nat (S n)) = zq (Z.of_nat n) + 1.
Proof. now rewrite Nat2Z.inj_succ, <- Z.add_1_r, zq_add. Qed.

Lemma fold_right_bounds (a b : Qc) (s : list Qc) :
  (forall v, In v s -> a <= v /\ v <= b) ->
  a * zq (Z.of_nat (List.length s)) <= fold_right Qcplus 0 s
  /\ fold_right Qcplus 0 s <= b * zq (Z.of_nat (List.length s)).
Proof.
  induction s as [| v s IH]; intros Hall.
  - cbn. change (zq 0) with 0.
    replace (a * 0) with 0 by ring. replace (b * 0) with 0 by ring.
    split; apply Qcle_refl.
  - destruct (Hall v (or_introl eq_refl)) as [Hav Hvb].
    destruct IH as [Hlo Hhi]; [intros w Hw; apply Hall; now right |].
    cbn [List.length fold_right]. rewrite zq_succ. split.
    + replace (a * (zq (Z.of_nat (List.length s)) + 1))
        with (a + a * zq (Z.of_nat (List.length s))) by ring.
      now apply Qcplus_le_compat.
    + replace (b * (zq (Z.of_nat (List.length s)) + 1))
        with (b + b * zq (Z.of_nat (List.length s))) by ring.
      now apply Qcplus_le_compat.
Qed.

(** The mean of numbers between [a] and [b] is between [a] and [b]. *)
Lemma mean_bounds (a b : Qc) (s : list Qc) :
  s <> [] ->
  (forall v, In v s -> a <= v /\ v <= b) ->
  a <= arithmetic_mean s /\ arithmetic_mean s <= b.
Proof.
  intros Hne Hall. destruct (fold_right_bounds a b s Hall) as [Hlo Hhi].
  assert (Hn : 0 < zq (Z.of_nat (List.length s))).
  { apply zq_pos. destruct s; [congruence | cbn; lia]. }
  assert (Hneq : zq (Z.of_nat (List.length s)) <> 0).
  { intros H0. rewrite H0 in Hn. exact (Qclt_not_eq _ _ Hn eq_refl). }
  assert (Hmul : arithmetic_mean s * zq (Z.of_nat (List.length s))
                 = fold_right Qcplus 0 s).
  { unfold arithmetic_mean. field. exact Hneq. }
  split; apply (Qcmult_lt_0_le_reg_r _ _ _ Hn); now rewrite Hmul.
Qed.

Lemma first_is_min (c0 : CircleAttributes.t)
      (cs : list CircleAttributes.t) :
  StronglySorted
    (fun c1 c2 => CircleAttributes.x c1 <= CircleAttributes.x c2)
    (c0 :: cs) ->
  forall c, In c (c0 :: cs) -> CircleAttributes.x c0 <= CircleAttributes.x c.
Proof.
  intros Hs c [<- | Hin]; [apply Qcle_refl |].
  apply StronglySorted_inv in Hs. destruct Hs as [_ Hall].
  rewrite Forall_forall in Hall. now apply Hall.
Qed.

(** X7.  The label of a group is over the group: its [label_x] is not
    left of the first circle of the group and not right of the last
    one. *)
Theorem label_over_group `{P : PandasSort} `{!PandasSortSpec P}
        (self : CirclePlotter.t) (h : heap) (df : DataFrame)
        (group : string) (order : list string) :
  valid_call self h df group order ->
  0 < CirclePlotter._radius self ->
  forall k cs c1 lab c0,
    group_run (emitted self h df group order) k (cs ++ [c1]) lab ->
    nth_error (cs ++ [c1]) 0 = Some c0 ->
    CircleAttributes.x c0 <= GroupLabel.label_x lab
    /\ GroupLabel.label_x lab <= CircleAttributes.x c1.
Proof.
  intros Hvalid Hr k cs c1 lab c0 Hrun Hc0.
  destruct (emitted_run_inv self h df group order Hvalid k _ lab Hrun)
    as (g & x1 & _ & _ & Hcs & Hlab).
  unfold layout_group in Hcs, Hlab. cbn [fst snd] in Hcs, Hlab.
  destruct (layout_group_follows self (fst g) (shape0 (snd g)) Hr
              (rows (sort_values (snd g) order false))
              (group_start self x1) 0) as [Hs _].
  rewrite <- Hcs in Hs, Hlab. apply follows_le in Hs.
  rewrite Hlab. cbn [label_for GroupLabel.label_x].
  rewrite py_mean_arithmetic.
  destruct (recorded_is_distinct (cs ++ [c1])) as [_ Hmem].
  apply mean_bounds.
  - apply record_points_x_not_nil. destruct cs; discriminate.
  - intros v Hv. apply Hmem, in_map_iff in Hv.
    destruct Hv as (c & <- & Hc). split.
    + destruct cs as [| c' cs]; cbn [app nth_error] in Hc0, Hs, Hc;
        injection Hc0 as <-; now apply (first_is_min _ _ Hs).
    + now apply (last_is_max cs c1 Hs).
Qed.

(* ================================================================= *)
(** ** The circles carry the records of the groups *)




(* ================================================================= *)
(** ** The places do not depend on the order *)

Lemma layout_rows_place (self : CirclePlotter.t) (group : cell) (n : Z)
      (rs : list Row) :
  forall rs' i x y,
    List.length rs = List.length rs' ->
    map circle_place (layout_rows self group n i x y rs)
    = map circle_place (layout_rows self group n i x y rs').
Proof.
  induction rs as [| r rs IH]; intros [| r' rs'] i x y Hlen;
    try discriminate Hlen; [reflexivity |].
  cbn [layout_rows map]. f_equal. apply IH.
  now injection Hlen.
Qed.

Lemma same_places (cs : list CircleAttributes.t) :
  forall cs' ph a,
    map circle_place cs = map circle_place cs' ->
    record_points ph cs = record_points ph cs'
    /\ last_x a cs = last_x a cs'.
Proof.
  induction cs as [| c cs IH]; intros [| c' cs'] ph a Heq;
    try discriminate Heq; [split; reflexivity |].
  cbn [map] in Heq. injection Heq as _ _ Hx Hy Hcs.
  unfold record_points, last_x. cbn [fold_left]. rewrite Hx, Hy.
  apply (IH cs' _ _ Hcs).
Qed.

Lemma layout_groups_place (P1 P2 : PandasSort) (self : CirclePlotter.t)
      (h : heap) (order1 order2 : list string)
      (gs : list (cell * DataFrame)) :
  (forall g : cell * DataFrame,
      List.length (rows (@sort_values P1 (snd g) order1 false))
      = List.length (rows (@sort_values P2 (snd g) order2 false))) ->
  forall x0,
    map place (flatten (@layout_groups P1 self h order1 gs x0))
    = map place (flatten (@layout_groups P2 self h order2 gs x0)).
Proof.
  intros Hlen. induction gs as [| g gs IH]; intros x0; [reflexivity |].
  cbn [layout_groups].
  change (flatten (?b :: ?bs)) with (block_items b ++ flatten bs).
  unfold block_items, layout_group. cbn [fst snd].
  pose proof (layout_rows_place self (fst g) (shape0 (snd g)) _ _ 0%Z
                (group_start self x0) 0 (Hlen g)) as Hcs.
  destruct (same_places _ _ CirclePointHistory.empty
              (group_start self x0) Hcs) as [Hph Hx].
  rewrite !map_app, !map_map. cbn [place map].
  rewrite <- !(map_map circle_place inl), Hcs, Hph, Hx, IH. reflexivity.
Qed.

(** X9.  Where the circles and the labels go does not depend on the
    columns the records are ordered by, nor on the order [sort_values]
    leaves tied records in: two runs on the same data yield, place by
    place, the same groups, counts, coordinates and labels.  The order
    decides only which record of the group a circle stands for. *)
Theorem places_independent_of_order (P1 P2 : PandasSort)
        (self : CirclePlotter.t) (h : heap) (df : DataFrame)
        (group : string) (order1 order2 : list string) :
  PandasSortSpec P1 -> PandasSortSpec P2 ->
  valid_call self h df group order1 ->
  valid_call self h df group order2 ->
  map place (@emitted P1 self h df group order1)
  = map place (@emitted P2 self h df group order2).
Proof.
  intros S1 S2 Hv1 Hv2.
  rewrite (@emitted_layout P1 S1 self h df group order1 Hv1).
  rewrite (@emitted_layout P2 S2 self h df group order2 Hv2).
  apply layout_groups_place. intros g.
  rewrite (Permutation_length (@sort_values_Permutation P1 S1 _ _ _)).
  now rewrite (Permutation_length (@sort_values_Permutation P2 S2 _ _ _)).
Qed.

(* ================================================================= *)
(** ** What the constructor accepts *)

Lemma alpha_check (a : Qc) : Qc_ltb a 0 && Qc_leb a 1 = Qc_ltb a 0.
Proof.
  destruct (Qc_ltb a 0) eqn:E; [| reflexivity]. cbn [andb].
  apply Qc_ltb_lt in E. apply Qc_leb_le.
  apply Qclt_le_weak, Qclt_trans with 0; [exact E | reflexivity].
Qed.

Lemma PlotAttributes_init_cases `{M : Matplotlib} (color alpha label : pyval) :
  (is_color_like color
   && match as_number alpha with
      | Some a => negb (Qc_ltb a 0)
      | None => false
      end = true
   /\ PlotAttributes.__init__ color alpha label
      = inr (PyPlotAttributes color alpha label))
  \/ (is_color_like color
      && match as_number alpha with
         | Some a => negb (Qc_ltb a 0)
         | None => false
         end = false
      /\ exists e,
          PlotAttributes.__init__ color alpha label = inl e
          /\ is_type_or_value_error e = true).
Proof.
  unfold PlotAttributes.__init__, PlotAttributes.color_setter,
    PlotAttributes.alpha_setter.
  destruct (is_color_like color); cbn [negb rbind andb];
    [| right; split; [reflexivity | eexists; split; reflexivity]].
  destruct (as_number alpha) as [a |]; cbn [rbind];
    [| right; split; [reflexivity | eexists; split; reflexivity]].
  rewrite alpha_check.
  destruct (Qc_ltb a 0); cbn [negb rbind];
    [right; split; [reflexivity | eexists; split; reflexivity] |].
  left. split; reflexivity.
Qed.

(** One pass of the loop of the setter: the entry is let through and its
    value replaced, or the loop stops there with a type or value error. *)
Lemma convert_items_step `{M : Matplotlib} (h : heap) (l : ref)
      (k : cell) (v : pyval) (items : dict) :
  (accepted_style v = true
   /\ exists color alpha label,
       as_sequence v = Some [color; alpha; label]
       /\ CirclePlotter.convert_items h l ((k, v) :: items)
          = CirclePlotter.convert_items
              (heap_set h l (dict_set (h l) k
                                      (PyPlotAttributes color alpha label)))
              l items)
  \/ (accepted_style v = false
      /\ exists e,
          CirclePlotter.convert_items h l ((k, v) :: items) = (h, inl e)
          /\ is_type_or_value_error e = true).
Proof.
  unfold accepted_style. cbn [CirclePlotter.convert_items].
  destruct (as_sequence v) as [elems |];
    [| right; split; [reflexivity | eexists; split; reflexivity]].
  destruct elems as [| color [| alpha [| label [| ? ?]]]];
    try (right; split; [reflexivity | eexists; split; reflexivity]).
  destruct (PlotAttributes_init_cases color alpha label)
    as [[Hacc ->] | (Hrej & e & -> & He)].
  - left. split; [exact Hacc |]. now exists color, alpha, label.
  - right. split; [exact Hrej |]. now exists e.
Qed.

Lemma convert_items_accepts `{M : Matplotlib} (l : ref) (items : dict) :
  forall h,
    (exists h', CirclePlotter.convert_items h l items = (h', inr tt))
    <-> forallb accepted_style (map snd items) = true.
Proof.
  induction items as [| [k v] items IH]; intros h.
  - cbn. split; [reflexivity | intros _; now exists h].
  - cbn [map snd forallb].
    destruct (convert_items_step h l k v items)
      as [(Hacc & c & a & lb & _ & ->) | (Hrej & e & -> & _)].
    + rewrite Hacc. cbn [andb]. apply IH.
    + rewrite Hrej. cbn [andb]. split; [| discriminate].
      intros (h' & Heq). discriminate Heq.
Qed.

Lemma convert_items_stops `{M : Matplotlib} (l : ref) (items : dict) :
  forall (done : dict) (h h' : heap) (e : exn),
    h l = done ++ items ->
    NoDup (map fst (done ++ items)) ->
    CirclePlotter.convert_items h l items = (h', inl e) ->
    is_type_or_value_error e = true
    /\ (forall l0, l0 <> l -> h' l0 = h l0)
    /\ exists pre pre' k v rest,
        items = pre ++ (k, v) :: rest
        /\ accepted_style v = false
        /\ h' l = done ++ pre' ++ (k, v) :: rest
        /\ Forall2 converted_entry pre pre'.
Proof.
  induction items as [| [k v] items IH]; intros done h h' e Hl Hnd Hrun.
  - discriminate Hrun.
  - destruct (convert_items_step h l k v items)
      as [(Hacc & c & a & lb & Hseq & Hstep) | (Hrej & e0 & Hstep & He)];
      rewrite Hstep in Hrun.
    + assert (Hk : ~ In k (map fst done)).
      { rewrite map_app in Hnd. cbn [map fst] in Hnd.
        apply NoDup_remove_2 in Hnd. intros Hin.
        apply Hnd, in_or_app. now left. }
      rewrite Hl, (dict_set_middle done items k v _ Hk) in Hrun.
      destruct (IH (done ++ [(k, PyPlotAttributes c a lb)])
                   (heap_set h l
                      (done ++ (k, PyPlotAttributes c a lb) :: items))
                   h' e)
        as (He & Hframe & pre & pre' & k1 & v1 & rest
            & Hitems & Hrej & Hl' & Hconv).
      * rewrite heap_set_same, <- app_assoc. reflexivity.
      * rewrite <- app_assoc. cbn [app]. rewrite map_app in *. exact Hnd.
      * exact Hrun.
      * split; [exact He |]. split.
        { intros l0 Hne. rewrite (Hframe l0 Hne). now apply heap_set_other. }
        exists ((k, v) :: pre), ((k, PyPlotAttributes c a lb) :: pre'),
               k1, v1, rest.
        split; [cbn; now rewrite Hitems |]. split; [exact Hrej |].
        split; [rewrite Hl', <- app_assoc; reflexivity |].
        constructor; [| exact Hconv].
        split; [reflexivity |]. exists c, a, lb. now split.
    + injection Hrun as <- <-. split; [exact He |].
      split; [reflexivity |].
      exists [], [], k, v, items.
      repeat split; [exact Hrej | exact Hl | constructor].
Qed.

Lemma init_numbers (radius x_init y_init : Qc) :
  (0 < radius /\ 0 <= x_init /\ 0 <= y_init
   /\ (r <-! CirclePlotter.radius_setter radius ;;
       x <-! CirclePlotter.x_init_setter x_init ;;
       y <-! CirclePlotter.y_init_setter y_init ;;
       inr (r, x, y)) = inr (radius, x_init, y_init))
  \/ ((radius <= 0 \/ x_init < 0 \/ y_init < 0)
      /\ exists msg,
          (r <-! CirclePlotter.radius_setter radius ;;
           x <-! CirclePlotter.x_init_setter x_init ;;
           y <-! CirclePlotter.y_init_setter y_init ;;
           inr (r, x, y)) = inl (ValueError msg)).
Proof.
  unfold CirclePlotter.radius_setter, CirclePlotter.x_init_setter,
    CirclePlotter.y_init_setter.
  destruct (Qc_leb radius 0) eqn:Er; cbn [rbind].
  { right. apply Qc_leb_le in Er. split; [now left | now eexists]. }
  destruct (Qc_ltb x_init 0) eqn:Ex; cbn [rbind].
  { right. apply Qc_ltb_lt in Ex.
    split; [right; now left | now eexists]. }
  destruct (Qc_ltb y_init 0) eqn:Ey; cbn [rbind].
  { right. apply Qc_ltb_lt in Ey.
    split; [right; now right | now eexists]. }
  left. apply Qc_ltb_ge in Ex, Ey.
  repeat split; try assumption.
  apply Qcnot_le_lt. intros Hle. apply Qc_leb_le in Hle. congruence.
Qed.

Lemma not_both (radius x_init y_init : Qc) :
  0 < radius -> 0 <= x_init -> 0 <= y_init ->
  radius <= 0 \/ x_init < 0 \/ y_init < 0 -> False.
Proof.
  intros Hr Hx Hy [H | [H | H]].
  - exact (Qclt_not_le _ _ Hr H).
  - exact (Qclt_not_le _ _ H Hx).
  - exact (Qclt_not_le _ _ H Hy).
Qed.

(** X10.  The constructor succeeds exactly when the radius is positive,
    [x_init] and [y_init] are not negative, and [plot_attributes] is a
    dict each of whose values is a list or tuple of three with a colour
    first and a number not below zero second.  [circles_per_column] is
    not checked. *)
Theorem constructor_succeeds_iff `{M : Matplotlib} (h : heap)
        (value : pyval) (radius x_init y_init : Qc) (per_column : Z) :
  (exists h' self,
      CirclePlotter.__init__ h value radius x_init y_init per_column
      = (h', inr self))
  <-> (0 < radius /\ 0 <= x_init /\ 0 <= y_init
       /\ exists l,
           value = PyDict l
           /\ forallb accepted_style (map snd (h l)) = true).
Proof.
  unfold CirclePlotter.__init__.
  destruct (init_numbers radius x_init y_init)
    as [(Hr & Hx & Hy & ->) | (Hbad & msg & ->)].
  - unfold CirclePlotter.plot_attributes_setter. split.
    + intros (h' & self & Hrun). repeat split; try assumption.
      destruct value as [| | | | | | l | |]; try discriminate Hrun.
      exists l. split; [reflexivity |].
      apply (convert_items_accepts l (h l) h).
      destruct (CirclePlotter.convert_items h l (h l)) as [h1 [e | []]];
        [discriminate Hrun | now exists h1].
    + intros (_ & _ & _ & l & -> & Hacc).
      apply (convert_items_accepts l (h l) h) in Hacc.
      destruct Hacc as (h' & ->). cbn [rbind]. now eexists _, _.
  - split.
    + intros (h' & self & Hrun). discriminate Hrun.
    + intros (Hr & Hx & Hy & _).
      destruct (not_both radius x_init y_init Hr Hx Hy Hbad).
Qed.

(** X11.  When the constructor raises, it raises a type or value error
    and leaves every other dict alone.  If a number is out of range the
    caller's dict is as it was, since it is assigned last.  If the
    numbers are in range, the loop over the dict has stopped at the first
    entry that is not accepted: the entries before it are converted in
    the caller's dict, that entry and those after it are as they were. *)
Theorem constructor_failure `{M : Matplotlib} (h h' : heap) (l : ref)
        (radius x_init y_init : Qc) (per_column : Z) (e : exn) :
  NoDup (map fst (h l)) ->
  CirclePlotter.__init__ h (PyDict l) radius x_init y_init per_column
  = (h', inl e) ->
  is_type_or_value_error e = true
  /\ (forall l0, l0 <> l -> h' l0 = h l0)
  /\ (radius <= 0 \/ x_init < 0 \/ y_init < 0 -> h' l = h l)
  /\ (0 < radius -> 0 <= x_init -> 0 <= y_init ->
      exists pre pre' k v rest,
        h l = pre ++ (k, v) :: rest
        /\ accepted_style v = false
        /\ h' l = pre' ++ (k, v) :: rest
        /\ Forall2 converted_entry pre pre').
Proof.
  intros Hnd. unfold CirclePlotter.__init__.
  destruct (init_numbers radius x_init y_init)
    as [(Hr & Hx & Hy & ->) | (Hbad & msg & ->)].
  - unfold CirclePlotter.plot_attributes_setter.
    destruct (CirclePlotter.convert_items h l (h l)) as [h1 [e1 | []]] eqn:E;
      cbn [rbind]; [| discriminate].
    intros [= <- <-].
    destruct (convert_items_stops l (h l) [] h h1 e1 eq_refl Hnd E)
      as (He & Hframe & Hstop).
    split; [exact He |]. split; [exact Hframe |]. split.
    + intros Hbad. destruct (not_both radius x_init y_init Hr Hx Hy Hbad).
    + intros _ _ _. exact Hstop.
  - intros [= <- <-]. split; [reflexivity |]. split; [reflexivity |].
    split; [reflexivity |].
    intros Hr Hx Hy. destruct (not_both radius x_init y_init Hr Hx Hy Hbad).
Qed.

(* ================================================================= *)
(** ** From the constructor to the generator *)

Lemma converted_styled (d d' : dict) (k : cell) :
  Forall2 converted_entry d d' ->
  In k (map fst d) ->
  exists c a lb, dict_get d' k = Some (PyPlotAttributes c a lb).
Proof.
  induction 1 as [| [k0 v0] [k1 v1] d d' (Hk & c & a & lb & _ & Hv) _ IH];
    intros Hin; [destruct Hin |].
  cbn [fst snd] in Hk, Hv. subst k1 v1. cbn [dict_get].
  destruct (cell_eqb k k0) eqn:E; [now exists c, a, lb |].
  apply IH. destruct Hin as [Heq | Hin]; [| exact Hin].
  apply cell_eqb_neq in E. cbn [fst] in Heq. congruence.
Qed.

(** X12.  A plotter that the constructor has built keeps the numbers and
    the dict as they were passed, has a positive radius, and finds a
    [PlotAttributes] object under every key of that dict.  So the style
    of every group is there, and the call is one the properties of the
    layout are about, for every data frame that has the columns asked
    for and whose group identifiers are all keys of the dict, if
    [circles_per_column] is not zero. *)
Theorem constructed_plotter_is_styled `{M : Matplotlib}
        (h h' : heap) (l : ref) (radius x_init y_init : Qc)
        (per_column : Z) (self : CirclePlotter.t) :
  NoDup (map fst (h l)) ->
  CirclePlotter.__init__ h (PyDict l) radius x_init y_init per_column
  = (h', inr self) ->
  self = CirclePlotter.mk radius x_init y_init per_column l
  /\ 0 < CirclePlotter._radius self
  /\ (forall k, In k (map fst (h l)) -> styled self h' k)
  /\ forall df group order,
      in_columns group df = true ->
      forallb (fun c => in_columns c df) order = true ->
      per_column <> 0%Z ->
      (forall r,
          In r (rows df) -> In (group_key df group r) (map fst (h l))) ->
      valid_call self h' df group order.
Proof.
  intros Hnd Hinit.
  pose proof (init_runs_setter _ _ _ _ _ _ _ _ Hinit) as Hset.
  destruct (setter_ok h h' l _ Hnd Hset) as (Hkept & Hconv & _ & _).
  assert (Hself : self = CirclePlotter.mk radius x_init y_init per_column l
                  /\ 0 < radius).
  { unfold CirclePlotter.__init__ in Hinit.
    destruct (init_numbers radius x_init y_init)
      as [(Hr & _ & _ & Hnum) | (_ & msg & Hnum)];
      rewrite Hnum in Hinit; [| discriminate Hinit].
    destruct (CirclePlotter.plot_attributes_setter h (PyDict l))
      as [h1 [e | l1]]; cbn [rbind] in Hinit; [discriminate Hinit |].
    injection Hset as _ Hl1. injection Hinit as _ <-.
    cbn [CirclePlotter._plot_attributes] in Hl1, Hkept.
    split; [now rewrite Hkept | exact Hr]. }
  destruct Hself as [Hself Hr].
  assert (Hstyled : forall k, In k (map fst (h l)) -> styled self h' k).
  { intros k Hk. unfold styled. rewrite Hkept.
    exact (converted_styled _ _ _ Hconv Hk). }
  split; [exact Hself |]. split; [now rewrite Hself |].
  split; [exact Hstyled |].
  intros df group order Hg Ho Hpc Hkeys.
  constructor; [exact Hg | exact Ho | now rewrite Hself |].
  intros r Hin. exact (Hstyled _ (Hkeys r Hin)).
Qed.

(* ================================================================= *)
(** ** The cache of [pad] *)

Lemma access_step_inv (self : PadCache.t) (a : access) :
  0 < PadCache._radius self ->
  PadCache._pad self = None
  \/ PadCache._pad self = Some (zq 2 * PadCache._radius self) ->
  let self' := access_step self a in
  0 < PadCache._radius self'
  /\ (PadCache._pad self' = None
      \/ PadCache._pad self' = Some (zq 2 * PadCache._radius self'))
  /\ PadCache._radius self' = last_assigned (PadCache._radius self) [a].
Proof.
  intros Hr Hpad. destruct a as [value |]; cbn [access_step last_assigned].
  - unfold PadCache.radius_setter.
    destruct (Qc_leb value 0) eqn:E; [now repeat split |].
    cbn [PadCache._radius PadCache._pad]. repeat split; [| now left].
    apply Qcnot_le_lt. intros Hle. apply Qc_leb_le in Hle. congruence.
  - unfold PadCache.pad.
    destruct (PadCache._pad self) as [p |] eqn:E; cbn [snd].
    + rewrite E. now repeat split.
    + cbn [PadCache._radius PadCache._pad]. repeat split; [exact Hr |].
      now right.
Qed.

(** X13.  The cache of [pad] never goes stale.  After the constructor has
    set a radius, and whatever values are assigned to [radius] and
    however often [pad] is read in between, the radius is the last
    positive value assigned and [pad] returns twice that radius; reading
    it leaves the radius as it is. *)
Theorem pad_never_stale (radius : Qc) (self : PadCache.t)
        (l : list access) :
  PadCache.radius_setter radius = inr self ->
  let self' := fold_left access_step l self in
  PadCache._radius self' = last_assigned radius l
  /\ 0 < PadCache._radius self'
  /\ fst (PadCache.pad self') = zq 2 * PadCache._radius self'
  /\ PadCache._radius (snd (PadCache.pad self')) = PadCache._radius self'
  /\ forall plotter,
      CirclePlotter._radius plotter = PadCache._radius self' ->
      CirclePlotter.pad plotter = fst (PadCache.pad self').
Proof.
  intros Hset.
  assert (Hinv : 0 < PadCache._radius self
                 /\ (PadCache._pad self = None
                     \/ PadCache._pad self
                        = Some (zq 2 * PadCache._radius self))
                 /\ PadCache._radius self = radius).
  { unfold PadCache.radius_setter in Hset.
    destruct (Qc_leb radius 0) eqn:E; [discriminate Hset |].
    injection Hset as <-. cbn. repeat split; [| now left].
    apply Qcnot_le_lt. intros Hle. apply Qc_leb_le in Hle. congruence. }
  clear Hset. destruct Hinv as (Hr & Hpad & <-). revert self Hr Hpad.
  induction l as [| a l IH]; intros self Hr Hpad.
  - cbn [fold_left last_assigned]. split; [reflexivity |].
    split; [exact Hr |].
    assert (Hp : fst (PadCache.pad self) = zq 2 * PadCache._radius self
                 /\ PadCache._radius (snd (PadCache.pad self))
                    = PadCache._radius self).
    { unfold PadCache.pad. destruct Hpad as [-> | ->]; cbn; now split. }
    destruct Hp as [Hp1 Hp2]. split; [exact Hp1 |]. split; [exact Hp2 |].
    intros plotter Hpl. unfold CirclePlotter.pad. now rewrite Hpl, Hp1.
  - cbn [fold_left].
    destruct (access_step_inv self a Hr Hpad) as (Hr' & Hpad' & Hrad).
    destruct (IH (access_step self a) Hr' Hpad')
      as (H1 & H2 & H3 & H4 & H5).
    cbv zeta. split; [| now repeat split].
    rewrite H1, Hrad. destruct a as [value |]; cbn [last_assigned];
      reflexivity.
Qed.

(* ================================================================= *)
(** ** The labels are above the circles *)

Lemma zq_le (a b : Z) : (a <= b)%Z -> zq a <= zq b.
Proof.
  intros Hab. unfold Qcle, zq. cbn [this Q2Qc].
  rewrite !Qred_correct. now rewrite <- Zle_Qle.
Qed.

Lemma flatten_circle_In `{P : PandasSort} (self : CirclePlotter.t)
      (h : heap) (order : list string) (gs : list (cell * DataFrame))
      (c : CircleAttributes.t) :
  forall x0,
    In (Circle c) (flatten (layout_groups self h order gs x0)) ->
    exists g x1, In c (fst (layout_group self h order g x1)).
Proof.
  induction gs as [| g gs IH]; intros x0 Hin; [destruct Hin |].
  cbn [layout_groups] in Hin.
  change (flatten (?b :: ?bs)) with (block_items b ++ flatten bs) in Hin.
  apply in_app_or in Hin. destruct Hin as [Hin | Hin]; [| now apply IH in Hin].
  unfold block_items in Hin. apply in_app_or in Hin.
  destruct Hin as [Hin | [Hin | []]]; [| discriminate Hin].
  apply in_map_iff in Hin. destruct Hin as (c' & [= ->] & Hin).
  now exists g, x0.
Qed.

Lemma flatten_label_y `{P : PandasSort} (self : CirclePlotter.t)
      (h : heap) (order : list string) (gs : list (cell * DataFrame))
      (lab : GroupLabel.t) :
  forall x0,
    In (Label lab) (flatten (layout_groups self h order gs x0)) ->
    GroupLabel.label_y lab
    = CirclePlotter._y_init self
      + CirclePlotter.circle_pad self
        * zq (CirclePlotter.circles_per_column self).
Proof.
  induction gs as [| g gs IH]; intros x0 Hin; [destruct Hin |].
  cbn [layout_groups] in Hin.
  change (flatten (?b :: ?bs)) with (block_items b ++ flatten bs) in Hin.
  apply in_app_or in Hin. destruct Hin as [Hin | Hin]; [| now apply IH in Hin].
  unfold block_items in Hin. apply in_app_or in Hin.
  destruct Hin as [Hin | [Hin | []]].
  - apply in_map_iff in Hin. destruct Hin as (c' & Heq & _). discriminate Heq.
  - injection Hin as <-. reflexivity.
Qed.

(** In exact arithmetic the topmost row is one step of [3 * radius] below
    the labels. *)
Lemma circle_step_below_label `{P : PandasSort} `{!PandasSortSpec P}
        (self : CirclePlotter.t) (h : heap) (df : DataFrame)
        (group : string) (order : list string) :
  valid_call self h df group order ->
  0 < CirclePlotter._radius self ->
  (0 < CirclePlotter.circles_per_column self)%Z ->
  forall c lab,
    In (Circle c) (emitted self h df group order) ->
    In (Label lab) (emitted self h df group order) ->
    CirclePlotter._y_init self <= CircleAttributes.y c
    /\ CircleAttributes.y c + zq 3 * CirclePlotter._radius self
       <= GroupLabel.label_y lab.
Proof.
  intros Hvalid Hr Hc c lab Hin Hlab.
  rewrite (emitted_layout self h df group order Hvalid) in Hin, Hlab.
  rewrite (flatten_label_y self h order _ lab _ Hlab).
  destruct (flatten_circle_In self h order _ c _ Hin) as (g & x1 & Hcs).
  unfold layout_group in Hcs. cbn [fst] in Hcs.
  apply In_nth_error in Hcs. destruct Hcs as (j & Hj).
  destruct (nth_error (layout_rows self (fst g) (shape0 (snd g)) 0
                                   (group_start self x1) 0
                                   (rows (sort_values (snd g) order false))) 0)
    as [c0 |] eqn:E0.
  2:{ apply nth_error_None in E0.
      assert (Hlt : (j < List.length
                           (layout_rows self (fst g) (shape0 (snd g)) 0
                              (group_start self x1) 0
                              (rows (sort_values (snd g) order false))))%nat)
        by (apply nth_error_Some; congruence).
      lia. }
  destruct (layout_rows_closed self _ _ _ _ _ Hc j c0 c E0 Hj) as [_ Hy].
  pose proof (Z.mod_pos_bound (Z.of_nat j)
                (CirclePlotter.circles_per_column self) Hc) as Hm.
  pose proof (circle_pad_pos self Hr) as Hpad.
  fold (CirclePlotter.circle_pad self). rewrite Hy.
  set (m := (Z.of_nat j mod CirclePlotter.circles_per_column self)%Z) in *.
  split.
  - apply Qcle_trans
      with (CirclePlotter._y_init self
            + zq 0 * CirclePlotter.circle_pad self).
    + change (zq 0) with 0.
      replace (CirclePlotter._y_init self
               + 0 * CirclePlotter.circle_pad self)
        with (CirclePlotter._y_init self) by ring.
      apply Qcle_refl.
    + apply Qcplus_le_compat; [apply Qcle_refl |].
      apply Qcmult_le_compat_r; [apply zq_le; lia | now apply Qclt_le_weak].
  - replace (CirclePlotter._y_init self
             + zq m * CirclePlotter.circle_pad self
             + CirclePlotter.circle_pad self)
      with (CirclePlotter._y_init self
            + zq (m + 1) * CirclePlotter.circle_pad self)
      by (rewrite zq_add; change (zq 1) with 1; ring).
    apply Qcplus_le_compat; [apply Qcle_refl |].
    rewrite (Qcmult_comm (CirclePlotter.circle_pad self)).
    apply Qcmult_le_compat_r; [apply zq_le; lia | now apply Qclt_le_weak].
Qed.

(** X14.  Every circle is at [y_init] or above, and every label is above
    every circle: [label_y] is more than the y of any circle of the
    iteration. *)
Theorem circles_below_labels `{P : PandasSort} `{!PandasSortSpec P}
        (self : CirclePlotter.t) (h : heap) (df : DataFrame)
        (group : string) (order : list string) :
  valid_call self h df group order ->
  0 < CirclePlotter._radius self ->
  (0 < CirclePlotter.circles_per_column self)%Z ->
  forall c lab,
    In (Circle c) (emitted self h df group order) ->
    In (Label lab) (emitted self h df group order) ->
    CirclePlotter._y_init self <= CircleAttributes.y c
    /\ CircleAttributes.y c < GroupLabel.label_y lab.
Proof.
  intros Hvalid Hr Hc c lab Hin Hlab.
  destruct (circle_step_below_label self h df group order Hvalid Hr Hc
              c lab Hin Hlab) as [Hlo Hhi].
  split; [exact Hlo |].
  apply Qclt_le_trans
    with (CircleAttributes.y c + zq 3 * CirclePlotter._radius self);
    [| exact Hhi].
  apply Qc_lt_add_pos. now apply circle_pad_pos.
Qed.

(* ================================================================= *)
(** ** A negative number of circles per column *)







(* ================================================================= *)
(** ** The order of the records of a group *)

(** X16.  Every group of the data has its circles in the output, and they
    carry the records of the group in descending order of the order
    columns: the keys of each record are not below those of the next
    ([sort_values] is called with [ascending=False]).  When there are two
    or more order columns, records with the same keys come in input
    order.  With one order column the order of such records is left to
    the default [kind] of [sort_values]. *)
Theorem records_descending `{P : PandasSort} `{!PandasSortSpec P}
        (self : CirclePlotter.t) (h : heap) (df : DataFrame)
        (group : string) (order : list string) :
  valid_call self h df group order ->
  sortable df order ->
  forall k,
    In k (map (group_key df group) (rows df)) ->
    exists cs lab,
      group_run (emitted self h df group order) k cs lab
      /\ Permutation (map CircleAttributes.row cs) (group_rows df group k)
      /\ Sorted (fun r1 r2 => key_geb (columns df) order r1 r2 = true)
                (map CircleAttributes.row cs)
      /\ ((2 <= List.length order)%nat ->
          forall r,
            filter (same_key (columns df) order r)
                   (map CircleAttributes.row cs)
            = filter (same_key (columns df) order r)
                     (group_rows df group k)).
Proof.
  intros Hvalid Hsort k Hk.
  destruct (run_of_key self h df group order k Hvalid Hk)
    as (g & x1 & Hin & Hg & Hrun & _ & _).
  destruct (groupby_In df group false g Hin) as (_ & Hcols & Hrows).
  assert (Hsort_g : sortable (snd g) order).
  { intros c Hc. destruct (Hsort c Hc) as (b & Hb). exists b.
    intros r Hr. rewrite Hcols. apply Hb.
    rewrite Hrows in Hr. unfold group_rows in Hr.
    now apply filter_In in Hr. }
  exists (fst (layout_group self h order g x1)),
         (snd (layout_group self h order g x1)).
  split; [exact Hrun |].
  unfold layout_group. cbn [fst].
  rewrite layout_rows_row, <- Hg, <- Hrows, <- Hcols.
  split; [apply sort_values_Permutation |].
  split; [exact (sort_values_Sorted (snd g) order false Hsort_g) |].
  intros Hlen r. now apply sort_values_stable.
Qed.

(* ================================================================= *)
(** ** The further properties on the examples *)

(** The dict of the example as the caller passed it, never converted:
    the first label finds a tuple where the style object should be. *)
Lemma generator_exceptions_witness :
  let g := @CirclePlotter.circle_generator stable_sort example_plotter
             (PyDataFrame example_frame) "party" ["votes"] in
  let out := fst (consume example_heap g) in
  let e := AttributeError "label" in
  consume example_heap g = (out, Some e)
  /\ (e = ZeroDivisionError ->
      CirclePlotter.circles_per_column example_plotter = 0%Z /\ out = [])
  /\ (forall k,
         e = KeyError k ->
         dict_get (example_heap
                     (CirclePlotter._plot_attributes example_plotter)) k
         = None)
  /\ (forall name,
         e = AttributeError name ->
         name = "label"
         /\ exists k v,
             dict_get (example_heap
                         (CirclePlotter._plot_attributes example_plotter)) k
             = Some v
             /\ forall c a l, v <> PyPlotAttributes c a l)
  /\ (forall name, e <> UnboundLocalError name)
  /\ e <> ValueError "max() arg is an empty sequence".
Proof.
  cbv zeta.
  assert (Hrun : consume example_heap
                   (@CirclePlotter.circle_generator stable_sort
                      example_plotter (PyDataFrame example_frame)
                      "party" ["votes"])
                 = (fst (consume example_heap
                           (@CirclePlotter.circle_generator stable_sort
                              example_plotter (PyDataFrame example_frame)
                              "party" ["votes"])),
                    Some (AttributeError "label"))).
  { vm_compute. reflexivity. }
  split; [exact Hrun |].
  exact (@generator_exceptions stable_sort example_plotter example_heap
           (PyDataFrame example_frame) "party" ["votes"] _ _ Hrun).
Defined.



(** A frame without records, a plotter with [circles_per_column = 0] and
    a dict that was never converted. *)
Lemma empty_frame_yields_nothing_witness :
  in_columns "party" empty_frame = true
  /\ forallb (fun c => in_columns c empty_frame) ["votes"] = true
  /\ rows empty_frame = []
  /\ consume example_heap
             (@CirclePlotter.circle_generator stable_sort zero_plotter
                (PyDataFrame empty_frame) "party" ["votes"])
     = ([], None).
Proof.
  split; [reflexivity |]. split; [reflexivity |]. split; [reflexivity |].
  exact (@empty_frame_yields_nothing stable_sort zero_plotter example_heap
           empty_frame "party" ["votes"] eq_refl eq_refl eq_refl).
Defined.



(** The fields of the items of the example. *)
Lemma run_fields_witness :
  PandasSortSpec stable_sort
  /\ valid_call example_plotter example_heap' example_frame "party" ["votes"]
  /\ forall k cs lab,
      group_run (@emitted stable_sort example_plotter example_heap'
                          example_frame "party" ["votes"]) k cs lab ->
      Forall (fun c => CircleAttributes.count c
                       = Z.of_nat (List.length
                                     (group_rows example_frame "party" k)))
             cs
      /\ GroupLabel.group_count lab
         = Z.of_nat (List.length (group_rows example_frame "party" k))
      /\ (forall color alpha label,
             dict_get (example_heap'
                         (CirclePlotter._plot_attributes example_plotter)) k
             = Some (PyPlotAttributes color alpha label) ->
             GroupLabel.group_sublabel lab = label)
      /\ GroupLabel.label_y lab
         = CirclePlotter._y_init example_plotter
           + zq 3 * CirclePlotter._radius example_plotter
             * zq (CirclePlotter.circles_per_column example_plotter).
Proof.
  split; [exact stable_sort_spec |]. split; [exact example_valid |].
  exact (@run_fields stable_sort stable_sort_spec
           example_plotter example_heap' example_frame "party" ["votes"]
           example_valid).
Defined.

Lemma example_per_column :
  (0 < CirclePlotter.circles_per_column example_plotter)%Z.
Proof. reflexivity. Qed.

(** The grid of the example, two circles to a column. *)
Lemma circles_on_a_grid_witness :
  PandasSortSpec stable_sort
  /\ valid_call example_plotter example_heap' example_frame "party" ["votes"]
  /\ 0 < CirclePlotter._radius example_plotter
  /\ (0 < CirclePlotter.circles_per_column example_plotter)%Z
  /\ (forall k cs lab k' cs' lab' j j' c c',
         group_run (@emitted stable_sort example_plotter example_heap'
                             example_frame "party" ["votes"]) k cs lab ->
         group_run (@emitted stable_sort example_plotter example_heap'
                             example_frame "party" ["votes"]) k' cs' lab' ->
         nth_error cs j = Some c ->
         nth_error cs' j' = Some c' ->
         (Z.of_nat j mod CirclePlotter.circles_per_column example_plotter
          = Z.of_nat j'
            mod CirclePlotter.circles_per_column example_plotter)%Z ->
         CircleAttributes.y c = CircleAttributes.y c')
  /\ (forall k cs lab j j' c c',
         group_run (@emitted stable_sort example_plotter example_heap'
                             example_frame "party" ["votes"]) k cs lab ->
         nth_error cs j = Some c ->
         nth_error cs j' = Some c' ->
         ((Z.of_nat j / CirclePlotter.circles_per_column example_plotter
           = Z.of_nat j'
             / CirclePlotter.circles_per_column example_plotter)%Z ->
          CircleAttributes.x c = CircleAttributes.x c')
         /\ ((Z.of_nat j / CirclePlotter.circles_per_column example_plotter
              < Z.of_nat j'
                / CirclePlotter.circles_per_column example_plotter)%Z ->
             CircleAttributes.x c < CircleAttributes.x c')).
Proof.
  split; [exact stable_sort_spec |]. split; [exact example_valid |].
  split; [exact example_radius |]. split; [exact example_per_column |].
  exact (@circles_on_a_grid stable_sort stable_sort_spec
           example_plotter example_heap' example_frame "party" ["votes"]
           example_valid example_radius example_per_column).
Defined.

(** The gridline between party A and party B. *)
Lemma gridline_between_groups_witness :
  PandasSortSpec stable_sort
  /\ valid_call example_plotter example_heap' example_frame "party" ["votes"]
  /\ 0 < CirclePlotter._radius example_plotter
  /\ forall pre c1 lab c2 post,
      @emitted stable_sort example_plotter example_heap'
               example_frame "party" ["votes"]
      = pre ++ Circle c1 :: Label lab :: Circle c2 :: post ->
      GroupLabel.gridline_x lab
      = CircleAttributes.x c1 + zq 4 * CirclePlotter._radius example_plotter
      /\ CircleAttributes.x c2
         = GroupLabel.gridline_x lab
           + zq 4 * CirclePlotter._radius example_plotter.
Proof.
  split; [exact stable_sort_spec |]. split; [exact example_valid |].
  split; [exact example_radius |].
  exact (@gridline_between_groups stable_sort stable_sort_spec
           example_plotter example_heap' example_frame "party" ["votes"]
           example_valid example_radius).
Defined.

(** The labels of the example, each over its group. *)
Lemma label_over_group_witness :
  PandasSortSpec stable_sort
  /\ valid_call example_plotter example_heap' example_frame "party" ["votes"]
  /\ 0 < CirclePlotter._radius example_plotter
  /\ forall k cs c1 lab c0,
      group_run (@emitted stable_sort example_plotter example_heap'
                          example_frame "party" ["votes"])
                k (cs ++ [c1]) lab ->
      nth_error (cs ++ [c1]) 0 = Some c0 ->
      CircleAttributes.x c0 <= GroupLabel.label_x lab
      /\ GroupLabel.label_x lab <= CircleAttributes.x c1.
Proof.
  split; [exact stable_sort_spec |]. split; [exact example_valid |].
  split; [exact example_radius |].
  exact (@label_over_group stable_sort stable_sort_spec
           example_plotter example_heap' example_frame "party" ["votes"]
           example_valid example_radius).
Defined.


Lemma example_valid_by_party :
  valid_call example_plotter example_heap' example_frame "party" ["party"].
Proof.
  constructor; try reflexivity; [discriminate |].
  apply example_styled; [reflexivity |].
  repeat constructor; (now left) || (now right).
Qed.

(** The example ordered by votes, and ordered by party, where all
    records of a group are tied. *)
Lemma places_independent_of_order_witness :
  PandasSortSpec stable_sort
  /\ valid_call example_plotter example_heap' example_frame "party" ["votes"]
  /\ valid_call example_plotter example_heap' example_frame "party" ["party"]
  /\ map place (@emitted stable_sort example_plotter example_heap'
                         example_frame "party" ["votes"])
     = map place (@emitted stable_sort example_plotter example_heap'
                           example_frame "party" ["party"]).
Proof.
  split; [exact stable_sort_spec |].
  split; [exact example_valid |]. split; [exact example_valid_by_party |].
  exact (places_independent_of_order stable_sort stable_sort
           example_plotter example_heap' example_frame "party"
           ["votes"] ["party"] stable_sort_spec stable_sort_spec
           example_valid example_valid_by_party).
Defined.

Lemma bad_heap_NoDup : NoDup (map fst (bad_heap O)).
Proof. repeat constructor; cbn; intuition discriminate. Qed.

(** A dict whose second entry is rejected: the first is converted. *)
Lemma constructor_failure_witness :
  let h' := fst (@CirclePlotter.__init__ example_colors bad_heap (PyDict O)
                   default_radius default_x_init default_y_init 2) in
  let e := TypeError "alpha must be of type float" in
  NoDup (map fst (bad_heap O))
  /\ @CirclePlotter.__init__ example_colors bad_heap (PyDict O)
       default_radius default_x_init default_y_init 2
     = (h', inl e)
  /\ is_type_or_value_error e = true
  /\ (forall l0, l0 <> O -> h' l0 = bad_heap l0)
  /\ (default_radius <= 0 \/ default_x_init < 0 \/ default_y_init < 0 ->
      h' O = bad_heap O)
  /\ (0 < default_radius -> 0 <= default_x_init -> 0 <= default_y_init ->
      exists pre pre' k v rest,
        bad_heap O = pre ++ (k, v) :: rest
        /\ @accepted_style example_colors v = false
        /\ h' O = pre' ++ (k, v) :: rest
        /\ Forall2 converted_entry pre pre').
Proof.
  cbv zeta.
  assert (Hrun : @CirclePlotter.__init__ example_colors bad_heap (PyDict O)
                   default_radius default_x_init default_y_init 2
                 = (fst (@CirclePlotter.__init__ example_colors bad_heap
                           (PyDict O) default_radius default_x_init
                           default_y_init 2),
                    inl (TypeError "alpha must be of type float")))
    by reflexivity.
  split; [exact bad_heap_NoDup |]. split; [exact Hrun |].
  exact (@constructor_failure example_colors bad_heap _ O
           default_radius default_x_init default_y_init 2 _
           bad_heap_NoDup Hrun).
Defined.

(** The plotter of the example, as the constructor builds it. *)
Lemma constructed_plotter_is_styled_witness :
  let h' := fst (@CirclePlotter.__init__ example_colors example_heap
                   (PyDict O) default_radius default_x_init
                   default_y_init 2) in
  NoDup (map fst (example_heap O))
  /\ @CirclePlotter.__init__ example_colors example_heap (PyDict O)
       default_radius default_x_init default_y_init 2
     = (h', inr example_plotter)
  /\ example_plotter
     = CirclePlotter.mk default_radius default_x_init default_y_init 2 O
  /\ 0 < CirclePlotter._radius example_plotter
  /\ (forall k,
         In k (map fst (example_heap O)) -> styled example_plotter h' k)
  /\ forall df group order,
      in_columns group df = true ->
      forallb (fun c => in_columns c df) order = true ->
      2%Z <> 0%Z ->
      (forall r,
          In r (rows df) ->
          In (group_key df group r) (map fst (example_heap O))) ->
      valid_call example_plotter h' df group order.
Proof.
  cbv zeta.
  assert (Hrun : @CirclePlotter.__init__ example_colors example_heap
                   (PyDict O) default_radius default_x_init
                   default_y_init 2
                 = (fst (@CirclePlotter.__init__ example_colors example_heap
                           (PyDict O) default_radius default_x_init
                           default_y_init 2),
                    inr example_plotter))
    by reflexivity.
  split; [exact example_styles_NoDup |]. split; [exact Hrun |].
  exact (@constructed_plotter_is_styled example_colors example_heap _ O
           default_radius default_x_init default_y_init 2 example_plotter
           example_styles_NoDup Hrun).
Defined.

(** A radius of 0.2, then a rejected 0 and an accepted 1: [pad] is 2. *)
Lemma pad_never_stale_witness :
  let self' := fold_left access_step example_accesses
                         (PadCache.mk default_radius None) in
  PadCache.radius_setter default_radius
  = inr (PadCache.mk default_radius None)
  /\ PadCache._radius self' = last_assigned default_radius example_accesses
  /\ 0 < PadCache._radius self'
  /\ fst (PadCache.pad self') = zq 2 * PadCache._radius self'
  /\ PadCache._radius (snd (PadCache.pad self')) = PadCache._radius self'
  /\ forall plotter,
      CirclePlotter._radius plotter = PadCache._radius self' ->
      CirclePlotter.pad plotter = fst (PadCache.pad self').
Proof.
  cbv zeta. split; [reflexivity |].
  exact (pad_never_stale default_radius (PadCache.mk default_radius None)
           example_accesses eq_refl).
Defined.

(** The circles and the labels of the example. *)
Lemma circles_below_labels_witness :
  PandasSortSpec stable_sort
  /\ valid_call example_plotter example_heap' example_frame "party" ["votes"]
  /\ 0 < CirclePlotter._radius example_plotter
  /\ (0 < CirclePlotter.circles_per_column example_plotter)%Z
  /\ forall c lab,
      In (Circle c) (@emitted stable_sort example_plotter example_heap'
                              example_frame "party" ["votes"]) ->
      In (Label lab) (@emitted stable_sort example_plotter example_heap'
                               example_frame "party" ["votes"]) ->
      CirclePlotter._y_init example_plotter <= CircleAttributes.y c
      /\ CircleAttributes.y c < GroupLabel.label_y lab.
Proof.
  split; [exact stable_sort_spec |]. split; [exact example_valid |].
  split; [exact example_radius |]. split; [exact example_per_column |].
  exact (@circles_below_labels stable_sort stable_sort_spec
           example_plotter example_heap' example_frame "party" ["votes"]
           example_valid example_radius example_per_column).
Defined.


Lemma example_valid_two_columns :
  valid_call example_plotter example_heap' example_frame
             "party" ["votes"; "party"].
Proof.
  constructor; try reflexivity; [discriminate |].
  apply example_styled; [reflexivity |].
  repeat constructor; (now left) || (now right).
Qed.

Lemma example_sortable : sortable example_frame ["votes"; "party"].
Proof.
  intros c [<- | [<- | []]].
  - exists true. intros r [<- | [<- | [<- | [<- | []]]]]; reflexivity.
  - exists false. intros r [<- | [<- | [<- | [<- | []]]]]; reflexivity.
Qed.

(** Party A of the example, ordered by votes and then by party: the two
    records with five votes are tied. *)
Lemma records_descending_witness :
  PandasSortSpec stable_sort
  /\ valid_call example_plotter example_heap' example_frame
                "party" ["votes"; "party"]
  /\ sortable example_frame ["votes"; "party"]
  /\ In (CStr "A") (map (group_key example_frame "party")
                        (rows example_frame))
  /\ exists cs lab,
      group_run (@emitted stable_sort example_plotter example_heap'
                          example_frame "party" ["votes"; "party"])
                (CStr "A") cs lab
      /\ Permutation (map CircleAttributes.row cs)
                     (group_rows example_frame "party" (CStr "A"))
      /\ Sorted (fun r1 r2 =>
                   key_geb (columns example_frame) ["votes"; "party"] r1 r2
                   = true)
                (map CircleAttributes.row cs)
      /\ ((2 <= List.length ["votes"; "party"])%nat ->
          forall r,
            filter (same_key (columns example_frame) ["votes"; "party"] r)
                   (map CircleAttributes.row cs)
            = filter (same_key (columns example_frame)
                               ["votes"; "party"] r)
                     (group_rows example_frame "party" (CStr "A"))).
Proof.
  split; [exact stable_sort_spec |].
  split; [exact example_valid_two_columns |].
  split; [exact example_sortable |]. split; [now left |].
  exact (@records_descending stable_sort stable_sort_spec
           example_plotter example_heap' example_frame "party"
           ["votes"; "party"] example_valid_two_columns example_sortable
           (CStr "A") (or_introl eq_refl)).
Defined.
